(** * ZKCookies: the consent circuit and the verification server


    A shallow embedding of
    - [circuits/consent.circom] (the [ConsentCircuit] template and the
      circomlib comparators it instantiates), as a relation on assignments
      of field elements of the BN254 scalar field;
    - [server.js] ([poseidonHash], [updateMerkleTree],
      [verifyOffchainSignature] and the [/verify] handler), over a small
      model of the JSON values an express request body carries;
    - the Cloudflare worker ([updateMerkleTree] and [verifyAndUpdate]). *)

From Stdlib Require Import String Ascii ZArith List Bool Lia.
Import ListNotations.
Open Scope Z_scope.

(* ================================================================== *)
(** ** Part 1: the Consent Transition Predicate (circom) *)

Module Circuit.

(** The BN254 scalar field prime used by circom. *)
Definition p : Z :=
  21888242871839275222246405745257275088548364400416034343698204186575808495617.

(** Field operations: signals are canonical representatives in [0, p). *)
Definition fadd (a b : Z) : Z := (a + b) mod p.
Definition fsub (a b : Z) : Z := (a - b) mod p.
Definition in_field (a : Z) : Prop := 0 <= a < p.

(** A signal constrained by [b * (b - 1) === 0] takes the value 0 or 1 in
    the prime field, so the bit signals of [Num2Bits] are booleans. *)
Definition b2f (b : bool) : Z := if b then 1 else 0.

(** [lc1 = sum out[i] * 2^i], least significant bit first. *)
Fixpoint bits_value (bs : list bool) : Z :=
  match bs with
  | [] => 0
  | b :: bs' => b2f b + 2 * bits_value bs'
  end.

(** circomlib [Num2Bits(n)]: [n] bit signals with [lc1 === in]. *)
Definition Num2Bits (n : nat) (x : Z) (out : list bool) : Prop :=
  length out = n /\ bits_value out mod p = x.

(** circomlib [LessThan(n)]:
    [n2b.in <== in[0] + (1 << n) - in[1]; out <== 1 - n2b.out[n]]. *)
Definition LessThan (n : nat) (in0 in1 : Z) (n2b : list bool) (out : Z) : Prop :=
  Num2Bits (S n) (fsub (fadd in0 (2 ^ Z.of_nat n)) in1) n2b /\
  out = fsub 1 (b2f (nth n n2b false)).

(** circomlib [LessEqThan(n)]: [LessThan(n)] on [in[0]] and [in[1] + 1]. *)
Definition LessEqThan (n : nat) (in0 in1 : Z) (n2b : list bool) (out : Z) : Prop :=
  LessThan n in0 (fadd in1 1) n2b out.

(** circomlib [GreaterEqThan(n)]: [LessThan(n)] on [in[1]] and [in[0] + 1]. *)
Definition GreaterEqThan (n : nat) (in0 in1 : Z) (n2b : list bool) (out : Z) : Prop :=
  LessThan n in1 (fadd in0 1) n2b out.

Definition TWO_YEARS : Z := 63072000.

(** An assignment of the signals of [ConsentCircuit]: the five public
    inputs, the private inputs, and the internal signals of the two
    comparators ([consentCheck] and [timeCheck]). *)
Record assignment := {
  currentTime : Z;
  domainSalt : Z;
  newConsentCommitment : Z;
  nullifier : Z;
  root : Z;
  identitySecret : Z;
  oldConsent : Z;
  newConsent : Z;
  oldTimestamp : Z;
  timestamp : Z;
  pathElements : list Z;
  pathIndices : list Z;
  consentCheck_bits : list bool;
  consentCheck_out : Z;
  timeCheck_bits : list bool;
  timeCheck_out : Z
}.

Section ConsentCircuit.

(** [Poseidon(2)] and [Poseidon(3)] from circomlib, and the tree
    component [SMTVerifier(20)] wired as [tree.leaf], [tree.root],
    [tree.pathElements], [tree.pathIndices]: external components. *)
Variable Poseidon2 : Z -> Z -> Z.
Variable Poseidon3 : Z -> Z -> Z -> Z.
Variable SMTVerifier : Z -> Z -> list Z -> list Z -> Prop.

Definition signals_in_field (w : assignment) : Prop :=
  in_field (currentTime w) /\ in_field (domainSalt w) /\
  in_field (newConsentCommitment w) /\ in_field (nullifier w) /\
  in_field (root w) /\ in_field (identitySecret w) /\
  in_field (oldConsent w) /\ in_field (newConsent w) /\
  in_field (oldTimestamp w) /\ in_field (timestamp w) /\
  Forall in_field (pathElements w) /\ Forall in_field (pathIndices w) /\
  length (pathElements w) = 20%nat /\ length (pathIndices w) = 20%nat.

(** The constraints of [template ConsentCircuit()]. *)
Definition ConsentCircuit (w : assignment) : Prop :=
  signals_in_field w /\
  (* tree.leaf <== poseidon3Old.out; tree.root <== root *)
  SMTVerifier (Poseidon3 (oldConsent w) (oldTimestamp w) (identitySecret w))
              (root w) (pathElements w) (pathIndices w) /\
  (* nullifier === poseidon2.out *)
  nullifier w = Poseidon2 (identitySecret w) (domainSalt w) /\
  (* newConsentCommitment === poseidon3New.out *)
  newConsentCommitment w = Poseidon3 (newConsent w) (timestamp w) (identitySecret w) /\
  (* consentCheck = GreaterEqThan(8) on (newConsent, oldConsent); out === 1 *)
  GreaterEqThan 8 (newConsent w) (oldConsent w)
                (consentCheck_bits w) (consentCheck_out w) /\
  consentCheck_out w = 1 /\
  (* timeCheck = LessEqThan(32) on (currentTime - timestamp, TWO_YEARS); out === 1 *)
  LessEqThan 32 (fsub (currentTime w) (timestamp w)) TWO_YEARS
             (timeCheck_bits w) (timeCheck_out w) /\
  timeCheck_out w = 1.

End ConsentCircuit.

(** Witness generation of [Num2Bits(n)]: [out[i] <-- (in >> i) & 1]. *)
Definition Num2Bits_witness (n : nat) (x : Z) : list bool :=
  map (fun i => Z.testbit x (Z.of_nat i)) (seq 0 n).

(** A binary Merkle path check with [Poseidon(2)] at each level
    ([pathIndices[i] = 0]: the running node is the left child); an
    instance of the [SMTVerifier] interface the circuit wires up. *)
Fixpoint merkle_root (H2 : Z -> Z -> Z) (node : Z) (elems idxs : list Z) : Z :=
  match elems, idxs with
  | e :: es, i :: is => merkle_root H2 (if i =? 0 then H2 node e else H2 e node) es is
  | _, _ => node
  end.

Definition merkle_verifier (H2 : Z -> Z -> Z) (leaf rt : Z) (elems idxs : list Z) : Prop :=
  merkle_root H2 leaf elems idxs = rt.

(** Stand-ins for the hash components, used to exhibit concrete
    assignments (the comparator constraints do not depend on them). *)
Definition toy_Poseidon2 (a b : Z) : Z := fadd (fadd (a * a) b) 5.
Definition toy_Poseidon3 (a b c : Z) : Z := fadd (toy_Poseidon2 a b) (c * 3).

(** The assignment a prover computes from its inputs, with the stand-in
    hashes, an all-zero path, and the comparator bits generated as
    [Num2Bits] does. *)
Definition toy_assignment (oldC newC oldTs now ts : Z) : assignment :=
  let secret := 42 in let salt := 7 in
  let path := repeat 0 20 in let idxs := repeat 0 20 in
  {| currentTime := now;
     domainSalt := salt;
     newConsentCommitment := toy_Poseidon3 newC ts secret;
     nullifier := toy_Poseidon2 secret salt;
     root := merkle_root toy_Poseidon2 (toy_Poseidon3 oldC oldTs secret) path idxs;
     identitySecret := secret;
     oldConsent := oldC;
     newConsent := newC;
     oldTimestamp := oldTs;
     timestamp := ts;
     pathElements := path;
     pathIndices := idxs;
     consentCheck_bits := Num2Bits_witness 9 (fsub (fadd oldC (2 ^ 8)) (fadd newC 1));
     consentCheck_out := 1;
     timeCheck_bits :=
       Num2Bits_witness 33 (fsub (fadd (fsub now ts) (2 ^ 32)) (fadd TWO_YEARS 1));
     timeCheck_out := 1 |}.

End Circuit.

(* ================================================================== *)
(** ** Part 2: JSON values and the JavaScript conversions the server uses *)

Module Js.

#[local] Set Warnings "-register-all".
Local Open Scope string_scope.
Local Open Scope Z_scope.

(** The values of a JSON request body after [express.json()], plus
    [undefined] (what a missing property reads as). JSON numbers are
    modelled by integers: fractional numbers are outside this model. *)
Inductive jsval : Type :=
| JUndefined
| JNull
| JBool (b : bool)
| JNum (z : Z)
| JStr (s : string)
| JArr (xs : list jsval)
| JObj (fields : list (string * jsval)).

(** Truthiness ([if (v)], [!v], [v || d]). *)
Definition truthy (v : jsval) : bool :=
  match v with
  | JUndefined | JNull => false
  | JBool b => b
  | JNum z => negb (z =? 0)
  | JStr s => negb (String.eqb s "")
  | JArr _ | JObj _ => true
  end.

(** [v.k]: the last occurrence of a key wins, as with [JSON.parse]. *)
Definition get_prop (v : jsval) (k : string) : jsval :=
  match v with
  | JObj fs => fold_left (fun acc kv => if String.eqb k (fst kv) then snd kv else acc)
                         fs JUndefined
  | _ => JUndefined
  end.

(** Decimal rendering of an integer ([BigInt.prototype.toString],
    [Number.prototype.toString] on integers). *)
Fixpoint dec_digits (fuel : nat) (n : Z) (acc : string) : string :=
  let acc' := String (ascii_of_nat (48 + Z.to_nat (n mod 10))) acc in
  match fuel with
  | O => acc'
  | S f => if n <? 10 then acc' else dec_digits f (n / 10) acc'
  end.

Definition dec_of_Z (z : Z) : string :=
  if z <? 0 then String "-"%char (dec_digits (Z.to_nat (Z.log2 (- z))) (- z) "")
  else dec_digits (Z.to_nat (Z.log2 z)) z "".

(** [v[i]] on an array, a string (one code unit) or an object. *)
Definition get_index (v : jsval) (i : nat) : jsval :=
  match v with
  | JArr xs => nth i xs JUndefined
  | JStr s => match String.get i s with
              | Some c => JStr (String c EmptyString)
              | None => JUndefined
              end
  | JObj _ => get_prop v (dec_of_Z (Z.of_nat i))
  | _ => JUndefined
  end.

(** [ToString]; arrays render as [join(',')] with [null] and
    [undefined] elements as the empty string. *)
Fixpoint js_to_string (v : jsval) : string :=
  match v with
  | JUndefined => "undefined"
  | JNull => "null"
  | JBool b => if b then "true" else "false"
  | JNum z => dec_of_Z z
  | JStr s => s
  | JArr xs =>
      (fix join (xs : list jsval) : string :=
         match xs with
         | [] => ""
         | x :: xs' =>
             let e := match x with
                      | JUndefined | JNull => ""
                      | _ => js_to_string x
                      end in
             match xs' with
             | [] => e
             | _ => (e ++ "," ++ join xs')%string
             end
         end) xs
  | JObj _ => "[object Object]"
  end.

(** The ASCII white space that [StringToBigInt] and [StringToNumber]
    trim (tab, line feed, vertical tab, form feed, carriage return, space).
    Non-ASCII white space (U+00A0, U+FEFF, ...), which JS trims too, is
    outside this model of strings. *)
Definition is_ws (c : ascii) : bool :=
  match nat_of_ascii c with
  | 9 | 10 | 11 | 12 | 13 | 32 => true
  | _ => false
  end%nat.

Fixpoint drop_ws (cs : list ascii) : list ascii :=
  match cs with
  | c :: cs' => if is_ws c then drop_ws cs' else cs
  | [] => []
  end.

Definition trim (cs : list ascii) : list ascii := rev (drop_ws (rev (drop_ws cs))).

Definition digit_value (c : ascii) : option Z :=
  let n := Z.of_nat (nat_of_ascii c) in
  if (48 <=? n) && (n <=? 57) then Some (n - 48)
  else if (97 <=? n) && (n <=? 102) then Some (n - 87)
  else if (65 <=? n) && (n <=? 70) then Some (n - 55)
  else None.

(** A non-empty digit sequence in the given radix. *)
Fixpoint digits_acc (radix acc : Z) (cs : list ascii) : option Z :=
  match cs with
  | [] => Some acc
  | c :: cs' =>
      match digit_value c with
      | Some d => if d <? radix then digits_acc radix (acc * radix + d) cs' else None
      | None => None
      end
  end.

Definition parse_digits (radix : Z) (cs : list ascii) : option Z :=
  match cs with
  | [] => None
  | _ => digits_acc radix 0 cs
  end.

Definition radix_of_prefix (c : ascii) : option Z :=
  if Ascii.eqb c "x"%char || Ascii.eqb c "X"%char then Some 16
  else if Ascii.eqb c "o"%char || Ascii.eqb c "O"%char then Some 8
  else if Ascii.eqb c "b"%char || Ascii.eqb c "B"%char then Some 2
  else None.

(** [StringToBigInt]: white space trimmed; the empty string is [0n];
    [0x]/[0o]/[0b] literals unsigned; decimal literals with an optional
    sign. [None] stands for the [SyntaxError]. *)
Definition string_to_bigint (s : string) : option Z :=
  match trim (list_ascii_of_string s) with
  | [] => Some 0
  | c0 :: c1 :: ds =>
      if Ascii.eqb c0 "0"%char then
        match radix_of_prefix c1 with
        | Some r => parse_digits r ds
        | None => parse_digits 10 (c0 :: c1 :: ds)
        end
      else if Ascii.eqb c0 "+"%char then parse_digits 10 (c1 :: ds)
      else if Ascii.eqb c0 "-"%char then option_map Z.opp (parse_digits 10 (c1 :: ds))
      else parse_digits 10 (c0 :: c1 :: ds)
  | cs => parse_digits 10 cs
  end.

(** [BigInt(v)]; [None] is the thrown [TypeError] or [SyntaxError]. *)
Definition js_BigInt (v : jsval) : option Z :=
  match v with
  | JUndefined | JNull => None
  | JBool b => Some (if b then 1 else 0)
  | JNum z => Some z
  | JStr s => string_to_bigint s
  | JArr _ | JObj _ => string_to_bigint (js_to_string v)
  end.

(** Numbers: integers and [NaN]. *)
Inductive number : Type := NNum (z : Z) | NaN.

(** [StringToNumber] on the integer literals of [StringToBigInt]; other
    strings are [NaN]. Strings with a fraction, an exponent or
    [Infinity] (['1.5'], ['1e9']), which JS reads as numbers, are outside
    the integer model. *)
Definition string_to_number (s : string) : number :=
  match string_to_bigint s with
  | Some z => NNum z
  | None => NaN
  end.

(** [ToNumber(v)], as used by the subtraction [currentTime - timestamp],
    exact on [undefined], [null], booleans and JSON integers. Outside the
    model: an object (or an array holding one) with an own [toString] or
    [valueOf] key, which is not callable, so [ToPrimitive] throws a
    [TypeError] where this function gives [NaN]; and the strings that
    [string_to_number] leaves out. *)
Definition js_ToNumber (v : jsval) : number :=
  match v with
  | JUndefined => NaN
  | JNull => NNum 0
  | JBool b => NNum (if b then 1 else 0)
  | JNum z => NNum z
  | JStr s => string_to_number s
  | JArr _ => string_to_number (js_to_string v)
  | JObj _ => NaN
  end.

(** [===] on the values of one request against a stored value, and the
    [SameValueZero] of [Set.has] and [Map.set]: they agree here (no
    [NaN] in JSON). A freshly parsed array or object is never identical
    to a value stored by an earlier request. *)
Definition js_same (a b : jsval) : bool :=
  match a, b with
  | JUndefined, JUndefined | JNull, JNull => true
  | JBool x, JBool y => Bool.eqb x y
  | JNum x, JNum y => Z.eqb x y
  | JStr x, JStr y => String.eqb x y
  | _, _ => false
  end.

(** Values [===] to themselves across requests: not arrays or objects. *)
Definition is_primitive (v : jsval) : bool :=
  match v with
  | JArr _ | JObj _ => false
  | _ => true
  end.

End Js.

(* ================================================================== *)
(** ** Part 3: the development server ([server.js]) *)

Module Server.
Import Js.
Local Open Scope string_scope.
Local Open Scope Z_scope.

(** [treeState]: the root (a decimal string, ['0'] initially), the
    [leaves] Map (commitment -> leaf index, in insertion order) and the
    [nullifiers] Set (in insertion order). *)
Record TreeState := {
  root : string;
  leaves : list (jsval * string);
  nullifiers : list jsval
}.

Definition initial_state : TreeState :=
  {| root := "0"; leaves := []; nullifiers := [] |}.

(** [Set.prototype.has] and [Set.prototype.add]. *)
Definition set_has (xs : list jsval) (v : jsval) : bool := existsb (js_same v) xs.

Definition set_add (xs : list jsval) (v : jsval) : list jsval :=
  if set_has xs v then xs else xs ++ [v].

(** [Map.prototype.set]: an existing key keeps its position and gets the
    new value; a new key is appended. *)
Fixpoint map_set (m : list (jsval * string)) (k : jsval) (x : string)
  : list (jsval * string) :=
  match m with
  | [] => [(k, x)]
  | (k', y) :: m' => if js_same k k' then (k', x) :: m' else (k', y) :: map_set m' k x
  end.

Definition map_has (m : list (jsval * string)) (k : jsval) : bool :=
  existsb (fun kv => js_same k (fst kv)) m.

(** [String(inputs.map(x => BigInt(x).toString()).join(','))], the
    string [poseidonHash] digests. *)
Fixpoint join_comma (xs : list Z) : string :=
  match xs with
  | [] => ""
  | [x] => dec_of_Z x
  | x :: xs' => dec_of_Z x ++ "," ++ join_comma xs'
  end.

(** [poseidonHash] of [server.js]: SHA-256 of the joined inputs, its
    first 16 hex digits read as a BigInt. The SHA-256 prefix is the
    external primitive [sha256_hex16]. *)
Definition poseidonHash_sha256 (sha256_hex16 : string -> Z) (inputs : list Z) : Z :=
  sha256_hex16 (join_comma inputs).

(** The responses of [/verify]: [res.status(..).json(..)]. [RInternal]
    is [{ error: 'Internal server error', details: error.message }]. *)
Inductive resp_body : Type :=
| RError (error : string)
| RInternal
| RSuccess (root message mode : string).

Record response := { status : Z; body : resp_body }.

Definition reject400 (msg : string) : response := {| status := 400; body := RError msg |}.
Definition internal500 : response := {| status := 500; body := RInternal |}.

Definition MSG_MISSING := "Missing publicSignals".
Definition MSG_OFFCHAIN_FAILED := "Offchain proof verification failed".
Definition MSG_ZK_FAILED := "ZK proof verification failed".
Definition MSG_ZK_ERROR := "ZK proof verification error".
Definition MSG_NO_PROOF := "No valid proof provided (neither ZK nor offchain)".
Definition MSG_NULLIFIER_USED := "Nullifier already used (double-spend detected)".
Definition MSG_ROOT_MISMATCH := "Merkle root mismatch".

Section Handler.

(** The hash behind [poseidonHash] (in [server.js],
    [poseidonHash_sha256]), whether [verification_key.json] was loaded at
    start-up, and snarkjs' [groth16.verify] with that key on
    [(publicSignals, proof)]: [None] when it throws. *)
Variable poseidonHash : list Z -> Z.
Variable verificationKey_loaded : bool.
Variable groth16_verify : jsval -> jsval -> option bool.

(** [updateMerkleTree(commitment)]: [leaves.set] happens before
    [BigInt(commitment)], which may throw ([None]). *)
Definition updateMerkleTree (s : TreeState) (commitment : jsval) : TreeState * option string :=
  let leaves' := map_set (leaves s) commitment (dec_of_Z (Z.of_nat (length (leaves s)))) in
  let leafCount := Z.of_nat (length leaves') in
  match js_BigInt commitment with
  | None => ({| root := root s; leaves := leaves'; nullifiers := nullifiers s |}, None)
  | Some c =>
      let newRoot := dec_of_Z (poseidonHash [c; leafCount]) in
      ({| root := newRoot; leaves := leaves'; nullifiers := nullifiers s |}, Some newRoot)
  end.

(** [verifyOffchainSignature(signature, domainSalt, newConsent,
    timestamp, commitment, nullifier)] at server time [now_ms]
    ([Date.now()]). *)
Definition verifyOffchainSignature (signature : jsval) (domainSalt newConsent : Z)
    (timestamp commitment nullifier : jsval) (now_ms : Z) : bool :=
  let currentTime := now_ms / 1000 in
  let too_far :=
    match js_ToNumber timestamp with
    | NNum t => Z.abs (currentTime - t) >? 86400
    | NaN => false
    end in
  if too_far then false
  else
    match js_BigInt commitment with
    | None => false
    | Some commitmentBigInt =>
        match js_BigInt nullifier with
        | None => false
        | Some nullifierBigInt =>
            if (commitmentBigInt =? 0) || (nullifierBigInt =? 0) then false
            else if negb (truthy signature)
                    || match signature with
                       | JStr sg => Nat.ltb (String.length sg) 16
                       | _ => true
                       end
            then false
            else true
        end
    end.

(** The part of the handler before the state is read (lines 98-157):
    it rejects, or yields [(newConsentCommitment, nullifier, claimedRoot)].
    Everything after [await groth16.verify] runs without another [await],
    so the rest of the handler is one atomic step on [treeState]. *)
Inductive stage : Type :=
| Reject (r : response)
| Proceed (newConsentCommitment nullifier claimedRoot : jsval).

Definition proof_stage (now_ms : Z) (reqBody : jsval) : stage :=
  let proof := get_prop reqBody "proof" in
  let publicSignals := get_prop reqBody "publicSignals" in
  let offchain := get_prop reqBody "offchain" in
  if negb (truthy publicSignals) then Reject (reject400 MSG_MISSING)
  else if truthy offchain then
    let newConsentCommitment := get_prop offchain "commitment" in
    let nullifier := get_prop offchain "nullifier" in
    let claimedRoot :=
      let r := get_index publicSignals 4 in if truthy r then r else JStr "0" in
    let newConsent := 255 in
    (* console.log: nullifier.substring(0, 20), commitment.substring(0, 20) *)
    match nullifier, newConsentCommitment with
    | JStr _, JStr _ =>
        match js_BigInt (get_index publicSignals 1) with
        | None => Reject internal500
        | Some domainSalt =>
            if verifyOffchainSignature (get_prop offchain "signature") domainSalt newConsent
                 (get_prop offchain "timestamp") newConsentCommitment nullifier now_ms
            then Proceed newConsentCommitment nullifier claimedRoot
            else Reject (reject400 MSG_OFFCHAIN_FAILED)
        end
    | _, _ => Reject internal500
    end
  else if truthy proof && verificationKey_loaded then
    match groth16_verify publicSignals proof with
    | None => Reject (reject400 MSG_ZK_ERROR)
    | Some false => Reject (reject400 MSG_ZK_FAILED)
    | Some true =>
        Proceed (get_index publicSignals 2) (get_index publicSignals 3)
                (get_index publicSignals 4)
    end
  else Reject (reject400 MSG_NO_PROOF).

(** Lines 159-180: replay check, root check, then the two mutations. *)
Definition apply_request (s : TreeState) (offchain_mode : bool)
    (newConsentCommitment nullifier claimedRoot : jsval) : TreeState * response :=
  if set_has (nullifiers s) nullifier then (s, reject400 MSG_NULLIFIER_USED)
  else if negb (js_same claimedRoot (JStr "0")) && negb (js_same claimedRoot (JStr (root s)))
  then (s, reject400 MSG_ROOT_MISMATCH)
  else
    let s1 := {| root := root s; leaves := leaves s;
                 nullifiers := set_add (nullifiers s) nullifier |} in
    match updateMerkleTree s1 newConsentCommitment with
    | (s2, Some newRoot) =>
        (s2, {| status := 200;
                body := RSuccess newRoot
                          (if offchain_mode then "Offchain proof verified and tree updated"
                           else "ZK proof verified and tree updated")
                          (if offchain_mode then "offchain" else "zk") |})
    | (s2, None) => (s2, internal500)
    end.

(** [app.post('/verify', ...)] on the request body [reqBody] at time
    [now_ms]. *)
Definition verify_handler (now_ms : Z) (s : TreeState) (reqBody : jsval) : TreeState * response :=
  match proof_stage now_ms reqBody with
  | Reject r => (s, r)
  | Proceed c n r => apply_request s (truthy (get_prop reqBody "offchain")) c n r
  end.

(** Inserting a sequence of commitments with [updateMerkleTree], one
    after the other. *)
Fixpoint insert_all (s : TreeState) (cs : list jsval) : TreeState :=
  match cs with
  | [] => s
  | c :: cs' => insert_all (fst (updateMerkleTree s c)) cs'
  end.

End Handler.

(** [app.post('/reset')]. *)
Definition reset (s : TreeState) : TreeState := initial_state.

End Server.

(* ================================================================== *)
(** ** Part 4: the Cloudflare worker ([verifyAndUpdate]) *)

Module Worker.
Import Js Server.
Local Open Scope Z_scope.

(** [poseidonHash] of the worker: the first 8 bytes of the UTF-8 encoding
    of the joined inputs, read as a big-endian BigInt (the joined string
    of two numbers is never empty). *)
Definition poseidonHash_prefix8 (inputs : list Z) : Z :=
  fold_left (fun acc c => acc * 256 + Z.of_nat (nat_of_ascii c)) 
            (firstn 8 (list_ascii_of_string (join_comma inputs))) 0.

Section VerifyAndUpdate.

(** The worker's hash, whether [loadVerificationKey()] resolves, and
    [groth16.verify] with that key. The worker's [updateMerkleTree] has
    the same body as the server's, so [Server.updateMerkleTree] is reused. *)
Variable poseidonHash : list Z -> Z.
Variable verificationKey_available : bool.
Variable groth16_verify : jsval -> jsval -> option bool.

(** [verifyAndUpdate(proof, publicSignals)]: [(success, root)] and the
    new tree state; every thrown error ends in the [catch] returning
    [{ success: false, root: treeState.root }]. *)
Definition verifyAndUpdate (s : TreeState) (proof publicSignals : jsval)
  : TreeState * (bool * string) :=
  if negb verificationKey_available then (s, (false, root s)) else
  match groth16_verify publicSignals proof with
  | None | Some false => (s, (false, root s))
  | Some true =>
      let newConsentCommitment := get_index publicSignals 2 in
      let nullifier := get_index publicSignals 3 in
      let claimedRoot := get_index publicSignals 4 in
      if set_has (nullifiers s) nullifier then (s, (false, root s))
      else if negb (js_same claimedRoot (JStr "0"))
              && negb (js_same claimedRoot (JStr (root s)))
      then (s, (false, root s))
      else
        let s1 := {| root := root s; leaves := leaves s;
                     nullifiers := set_add (nullifiers s) nullifier |} in
        match updateMerkleTree poseidonHash s1 newConsentCommitment with
        | (s2, Some newRoot) => (s2, (true, newRoot))
        | (s2, None) => (s2, (false, root s2))
        end
  end.

End VerifyAndUpdate.

End Worker.

(* ================================================================== *)
(** ** Part 5: concrete requests *)

Module Samples.
Import Js Server.
Local Open Scope string_scope.
Local Open Scope Z_scope.

(** The body the client of [banner.ts] sends in offchain mode, with the
    given timestamp and fifth public signal. *)
Definition offchain_object (ts : jsval) : jsval :=
  JObj [("nullifier", JStr "77"); ("commitment", JStr "123");
        ("signature", JStr "0123456789abcdef"); ("timestamp", ts)].

Definition offchain_request (ts root4 : jsval) : jsval :=
  JObj [("publicSignals",
         JArr [JStr "1700000000"; JStr "5"; JStr "123"; JStr "77"; root4]);
        ("offchain", offchain_object ts)].

(** An offchain request whose [publicSignals] has two elements, the first
    of which is not a number, and which carries no proof. *)
Definition short_signals_request : jsval :=
  JObj [("publicSignals", JArr [JStr "a"; JStr "5"]);
        ("offchain", offchain_object (JNum 1700000000))].

(** An offchain request without a [timestamp] field. *)
Definition untimed_request : jsval :=
  JObj [("publicSignals",
         JArr [JStr "1700000000"; JStr "5"; JStr "123"; JStr "77"; JStr "0"]);
        ("offchain",
         JObj [("nullifier", JStr "77"); ("commitment", JStr "123");
               ("signature", JStr "0123456789abcdef")])].

(** A ZK-mode request (proof plus five signals). *)
Definition zk_request (nullifier root4 : jsval) : jsval :=
  JObj [("proof", JObj [("pi_a", JArr [])]);
        ("publicSignals",
         JArr [JStr "1700000000"; JStr "5"; JStr "123"; nullifier; root4])].

(** A verifier stand-in that accepts every proof. *)
Definition accept_all (publicSignals proof : jsval) : option bool := Some true.

(** [1700000000] seconds, in milliseconds, and one day and a second later. *)
Definition t0_ms : Z := 1700000000000.
Definition t1_ms : Z := t0_ms + 86401000.

(** A state whose root has moved on and whose nullifier set holds ["77"]. *)
Definition used_state : TreeState :=
  {| root := "999"; leaves := [(JStr "42", "0")]; nullifiers := [JStr "77"] |}.

(** A state whose root has moved on and whose nullifier set is empty. *)
Definition moved_state : TreeState :=
  {| root := "999"; leaves := [(JStr "42", "0")]; nullifiers := [] |}.

(** An empty tree whose nullifier set is not empty. *)
Definition empty_with_nullifier : TreeState :=
  {| root := "0"; leaves := []; nullifiers := [JStr "9"] |}.

(** A verifier stand-in that always throws. *)
Definition throwing_verify (publicSignals proof : jsval) : option bool := None.

End Samples.

(* ================================================================== *)
(** ** Part 6: the worker's [fetch] entry point ([vite.config.ts]) *)

Module WorkerHttp.
Import Js Server Worker.
Local Open Scope string_scope.
Local Open Scope Z_scope.

(** The bodies the worker answers with; every response carries the CORS
    headers, which are not modelled. *)
Inductive worker_body : Type :=
| WNoBody                      (* the 204 preflight answer *)
| WMethodNotAllowed            (* 'Method not allowed' *)
| WMissing                     (* { error: 'Missing proof or publicSignals' } *)
| WVerified (root : string)    (* { success: true, root, message } *)
| WFailed                      (* { success: false, error: 'Proof verification failed or ...' } *)
| WInternal.                   (* { error: 'Internal server error' } *)

Record worker_response := { wstatus : Z; wbody : worker_body }.

Section Fetch.

Variable poseidonHash : list Z -> Z.
Variable verificationKey_available : bool.
Variable groth16_verify : jsval -> jsval -> option bool.

(** [fetch(request)]: [method] is [request.method]; [body] is what
    [await request.json()] yields, [None] when it throws. Destructuring
    [const { proof, publicSignals } = body] throws on [null]. *)
Definition worker_fetch (s : TreeState) (method : string) (body : option jsval)
  : TreeState * worker_response :=
  if String.eqb method "OPTIONS" then (s, {| wstatus := 204; wbody := WNoBody |})
  else if negb (String.eqb method "POST") then
    (s, {| wstatus := 405; wbody := WMethodNotAllowed |})
  else
    match body with
    | None | Some JNull => (s, {| wstatus := 500; wbody := WInternal |})
    | Some b =>
        let proof := get_prop b "proof" in
        let publicSignals := get_prop b "publicSignals" in
        if negb (truthy proof) || negb (truthy publicSignals) then
          (s, {| wstatus := 400; wbody := WMissing |})
        else
          match verifyAndUpdate poseidonHash verificationKey_available groth16_verify
                  s proof publicSignals with
          | (s', (true, r)) => (s', {| wstatus := 200; wbody := WVerified r |})
          | (s', (false, _)) => (s', {| wstatus := 400; wbody := WFailed |})
          end
    end.

End Fetch.

End WorkerHttp.

(* ================================================================== *)
(** ** Part 7: the client ([zk.ts] and [banner.ts]) *)

Module Client.
Import Js Server.
Local Open Scope string_scope.
Local Open Scope Z_scope.

(** [bytesToBigInt(bytes)]: [for (i = bytes.length - 1; i >= 0; i--)
    result = result * 256n + BigInt(bytes[i])], i.e. a left fold over the
    reversed array (a [Uint8Array]: every element in [0, 256)). *)
Definition bytesToBigInt (bytes : list Z) : Z :=
  fold_left (fun result b => result * 256 + b) (rev bytes) 0.

(** A lower-case hexadecimal digit. *)
Definition hex_char (n : nat) : ascii :=
  if Nat.ltb n 10 then ascii_of_nat (48 + n) else ascii_of_nat (87 + n).

(** [b.toString(16).padStart(2, '0')] for a byte [b < 256]. *)
Definition byte_hex (b : nat) : list ascii := [hex_char (b / 16); hex_char (b mod 16)].

(** [createFallbackPoseidon()]'s function: the joined decimal inputs,
    UTF-8 encoded (the joined string is ASCII: digits, commas and minus
    signs), each byte as two hex digits, [padEnd(32, '0')],
    [substring(0, 32)], read by [BigInt('0x' + hashHex)] ([None] would be
    the thrown [SyntaxError]). *)
Definition fallbackPoseidon (inputs : list Z) : option Z :=
  let inputStr := join_comma inputs in
  let data := map nat_of_ascii (list_ascii_of_string inputStr) in
  let hashInput := flat_map byte_hex data in
  let padded := app hashInput (repeat "0"%char (32 - List.length hashInput)) in
  let hashHex := firstn 32 padded in
  string_to_bigint (string_of_list_ascii ("0"%char :: "x"%char :: hashHex)).

(** The body [handleAccept] posts when [generateProof] falls back to
    offchain mode: [JSON.stringify({ proof: undefined, publicSignals,
    offchain })] drops [proof]. [publicSignals] holds [currentTime],
    [domainSalt], the commitment, the nullifier and [root] as decimal
    strings; [offchain.timestamp] is the number [timestamp]. *)
Definition client_offchain_request (currentTime domainSalt newCommitment nullifier root : Z)
    (signature : string) (timestamp : Z) : jsval :=
  JObj [("publicSignals",
         JArr [JStr (dec_of_Z currentTime); JStr (dec_of_Z domainSalt);
               JStr (dec_of_Z newCommitment); JStr (dec_of_Z nullifier);
               JStr (dec_of_Z root)]);
        ("offchain",
         JObj [("nullifier", JStr (dec_of_Z nullifier));
               ("commitment", JStr (dec_of_Z newCommitment));
               ("signature", JStr signature);
               ("timestamp", JNum timestamp)])].

End Client.

(* ================================================================== *)
(** ** Part 8: further concrete requests *)

Module MoreSamples.
Import Js Server.
Local Open Scope string_scope.
Local Open Scope Z_scope.

(** A ZK request with the given commitment, nullifier and root signals. *)
Definition zk_request_with (commitment nullifier root4 : jsval) : jsval :=
  JObj [("proof", JObj [("pi_a", JArr [])]);
        ("publicSignals",
         JArr [JStr "1700000000"; JStr "5"; commitment; nullifier; root4])].

(** An offchain request whose nullifier is a number, not a string. *)
Definition numeric_nullifier_request : jsval :=
  JObj [("publicSignals",
         JArr [JStr "1700000000"; JStr "5"; JStr "123"; JStr "77"; JStr "0"]);
        ("offchain",
         JObj [("nullifier", JNum 77); ("commitment", JStr "123");
               ("signature", JStr "0123456789abcdef");
               ("timestamp", JNum 1700000000)])].

(** A 64-character HMAC-SHA256 signature in hex. *)
Definition hmac_hex : string :=
  "00112233445566778899aabbccddeeff00112233445566778899aabbccddeeff".

End MoreSamples.

(* PROOFS-BEGIN *)

Module CircuitFacts.
Import Circuit.

Lemma p_large : 2 ^ 64 < p.
Proof. unfold p; lia. Qed.

Lemma fadd_small (a b : Z) : 0 <= a + b < p -> fadd a b = a + b.
Proof. intros H; unfold fadd; apply Z.mod_small; exact H. Qed.

Lemma fsub_small (a b : Z) : 0 <= a - b < p -> fsub a b = a - b.
Proof. intros H; unfold fsub; apply Z.mod_small; exact H. Qed.

Lemma bits_value_bounds (bs : list bool) :
  0 <= bits_value bs < 2 ^ Z.of_nat (length bs).
Proof.
  induction bs as [|b bs IH]; cbn [bits_value List.length].
  - simpl; lia.
  - rewrite Nat2Z.inj_succ, Z.pow_succ_r by lia.
    destruct b; cbn [b2f]; lia.
Qed.

(** With its top bit clear, an [S n]-bit decomposition is below [2^n]. *)
Lemma bits_value_top_clear (n : nat) (bs : list bool) :
  length bs = S n -> nth n bs false = false -> bits_value bs < 2 ^ Z.of_nat n.
Proof.
  revert bs; induction n as [|n IH]; intros bs Hlen Htop.
  - destruct bs as [|b [|b' bs]]; simpl in *; try discriminate.
    subst; simpl; lia.
  - destruct bs as [|b bs]; cbn [List.length nth bits_value] in *; try discriminate.
    injection Hlen as Hlen.
    specialize (IH bs Hlen Htop).
    rewrite Nat2Z.inj_succ, Z.pow_succ_r by lia.
    destruct b; cbn [b2f]; lia.
Qed.

(** A [LessThan(n)] instance whose output is constrained to 1 forces the
    value fed to its [Num2Bits(n+1)] below [2^n]. *)
Lemma LessThan_out_one (n : nat) (a b : Z) (bits : list bool) :
  2 ^ Z.of_nat (S n) < p ->
  LessThan n a b bits 1 -> fsub (fadd a (2 ^ Z.of_nat n)) b < 2 ^ Z.of_nat n.
Proof.
  intros Hp [[Hlen Hval] Hout].
  assert (Htop : nth n bits false = false).
  { destruct (nth n bits false); [|reflexivity].
    vm_compute in Hout; discriminate. }
  pose proof (bits_value_top_clear n bits Hlen Htop) as Hlt.
  pose proof (bits_value_bounds bits) as Hb.
  rewrite Hlen in Hb.
  rewrite Z.mod_small in Hval by lia.
  lia.
Qed.

End CircuitFacts.

Module CircuitClaims.
Import Circuit CircuitFacts.

(** Claim C2: for every assignment of the consent predicate in which
    [newConsent < oldConsent] as unsigned 8-bit integers, the constraints
    of [ConsentCircuit] are unsatisfiable (the [GreaterEqThan(8)] check
    with output 1 fails), whatever the hash and tree components. *)
Theorem consent_downgrade_unsatisfiable
  (Poseidon2 : Z -> Z -> Z) (Poseidon3 : Z -> Z -> Z -> Z)
  (SMTVerifier : Z -> Z -> list Z -> list Z -> Prop) (w : assignment) :
  0 <= newConsent w -> newConsent w < oldConsent w -> oldConsent w < 256 ->
  ~ ConsentCircuit Poseidon2 Poseidon3 SMTVerifier w.
Proof.
  intros H0 Hlt H256 (_ & _ & _ & _ & Hge & Hout & _).
  unfold GreaterEqThan in Hge; rewrite Hout in Hge.
  apply LessThan_out_one in Hge; [|pose proof p_large; simpl; lia].
  rewrite (fadd_small (newConsent w) 1) in Hge by (pose proof p_large; lia).
  rewrite fadd_small in Hge by (pose proof p_large; simpl; lia).
  rewrite fsub_small in Hge by (pose proof p_large; simpl; lia).
  simpl in Hge; lia.
Qed.

Lemma consent_downgrade_unsatisfiable_witness :
  let w := toy_assignment 255 1 900 1000 1000 in
  (0 <= newConsent w /\ newConsent w < oldConsent w /\ oldConsent w < 256) /\
  ~ ConsentCircuit toy_Poseidon2 toy_Poseidon3 (merkle_verifier toy_Poseidon2) w.
Proof.
  split.
  - vm_compute; repeat split; discriminate.
  - apply consent_downgrade_unsatisfiable; vm_compute; first [discriminate | reflexivity].
Defined.

Ltac solve_toy_circuit :=
  unfold ConsentCircuit, signals_in_field, GreaterEqThan, LessEqThan,
    LessThan, Num2Bits, merkle_verifier;
  repeat match goal with
  | |- _ /\ _ => split
  | |- Forall _ _ => constructor
  | |- in_field _ => unfold in_field
  | |- _ <= _ => vm_compute; intro; discriminate
  | |- _ < _ => vm_compute; reflexivity
  | |- _ = _ => vm_compute; reflexivity
  end.

(** The predicate is satisfiable: an upgrade from 0 to 255 with a fresh
    timestamp meets every constraint. *)
Lemma toy_upgrade_satisfies :
  ConsentCircuit toy_Poseidon2 toy_Poseidon3 (merkle_verifier toy_Poseidon2)
                 (toy_assignment 0 255 900 1000 1000).
Proof. solve_toy_circuit. Qed.

(** Claim C3, counterexample: the freshness check does not reject a
    [timestamp] later than [currentTime]. [currentTime - timestamp] is
    computed in the field, so it wraps to [p - 1], and [LessEqThan(32)]
    then sees [p - 1 + 2^32 - 63072001 = 4231895294 (mod p)], below
    [2^32]: the assignment with [currentTime = 1000] and
    [timestamp = 1001] satisfies every constraint. *)
Lemma consent_future_timestamp_satisfiable :
  let w := toy_assignment 0 255 900 1000 1001 in
  currentTime w < timestamp w /\
  ConsentCircuit toy_Poseidon2 toy_Poseidon3 (merkle_verifier toy_Poseidon2) w.
Proof.
  split; [vm_compute; reflexivity | solve_toy_circuit].
Qed.

(** Claim C3 (amended): for timestamps that fit the 32-bit comparator
    ([0 <= timestamp <= currentTime < 2^32]), an assignment with
    [currentTime - timestamp > 63072000] violates the constraints of
    [ConsentCircuit], whatever the hash and tree components. *)
Theorem consent_expired_unsatisfiable
  (Poseidon2 : Z -> Z -> Z) (Poseidon3 : Z -> Z -> Z -> Z)
  (SMTVerifier : Z -> Z -> list Z -> list Z -> Prop) (w : assignment) :
  0 <= timestamp w -> timestamp w <= currentTime w -> currentTime w < 2 ^ 32 ->
  currentTime w - timestamp w > TWO_YEARS ->
  ~ ConsentCircuit Poseidon2 Poseidon3 SMTVerifier w.
Proof.
  intros H0 Hle H32 Hold (_ & _ & _ & _ & _ & _ & Hlt & Hout).
  unfold LessEqThan in Hlt; rewrite Hout in Hlt.
  pose proof p_large as Hp.
  apply LessThan_out_one in Hlt; [|simpl; lia].
  unfold TWO_YEARS in *.
  rewrite (fsub_small (currentTime w)) in Hlt by lia.
  rewrite (fadd_small 63072000 1) in Hlt by lia.
  rewrite fadd_small in Hlt by (simpl; lia).
  rewrite fsub_small in Hlt by (simpl; lia).
  simpl in Hlt; lia.
Qed.

Lemma consent_expired_unsatisfiable_witness :
  let w := toy_assignment 0 255 900 100000000 0 in
  (0 <= timestamp w /\ timestamp w <= currentTime w /\ currentTime w < 2 ^ 32 /\
   currentTime w - timestamp w > TWO_YEARS) /\
  ~ ConsentCircuit toy_Poseidon2 toy_Poseidon3 (merkle_verifier toy_Poseidon2) w.
Proof.
  split.
  - vm_compute; repeat split; first [discriminate | reflexivity].
  - apply consent_expired_unsatisfiable; vm_compute; first [discriminate | reflexivity].
Defined.

End CircuitClaims.

Module ServerClaims.
Import Js Server.

Ltac split_match H :=
  repeat match type of H with
  | context [if ?b then _ else _] => destruct b
  | context [match ?x with _ => _ end] => destruct x
  end.

Ltac destruct_update :=
  match goal with
  | |- context [updateMerkleTree ?h ?st ?cc] =>
      destruct (updateMerkleTree h st cc) as [s2 [nr|]]
  end.

Section Claims.

Variable poseidonHash : list Z -> Z.
Variable verificationKey_loaded : bool.
Variable groth16_verify : jsval -> jsval -> option bool.

Local Abbreviation stage_of := (proof_stage verificationKey_loaded groth16_verify).
Local Abbreviation handler := (verify_handler poseidonHash verificationKey_loaded groth16_verify).

Lemma handler_proceed (now : Z) (s : TreeState) (reqBody c n cr : jsval) :
  stage_of now reqBody = Proceed c n cr ->
  handler now s reqBody = apply_request poseidonHash s (truthy (get_prop reqBody "offchain")) c n cr.
Proof. intros Hst; unfold verify_handler; rewrite Hst; reflexivity. Qed.

Lemma handler_reject (now : Z) (s : TreeState) (reqBody : jsval) (r : response) :
  stage_of now reqBody = Reject r -> handler now s reqBody = (s, r).
Proof. intros Hst; unfold verify_handler; rewrite Hst; reflexivity. Qed.

(** The rejections of the proof stage are none of the admission's. *)
Lemma stage_reject_not_admission (now : Z) (reqBody : jsval) (r : response) :
  stage_of now reqBody = Reject r ->
  r <> reject400 MSG_NULLIFIER_USED /\ r <> reject400 MSG_ROOT_MISMATCH.
Proof.
  unfold proof_stage; cbv zeta; intros Hst.
  split_match Hst; try discriminate Hst; injection Hst as <-; split; discriminate.
Qed.

Lemma apply_request_reused (s : TreeState) (m : bool) (c n cr : jsval) :
  set_has (nullifiers s) n = true ->
  apply_request poseidonHash s m c n cr = (s, reject400 MSG_NULLIFIER_USED).
Proof. intros Hn; unfold apply_request; rewrite Hn; reflexivity. Qed.

(** Claim C5: the replay check comes before the root check. A request
    that passes the proof stage with a nullifier already in the set gets
    [NullifierReused] (400) and leaves the state as it was, whatever its
    claimed root; a [StaleRoot] rejection ([Merkle root mismatch]) is only
    ever produced for a request that passed the proof stage with a fresh
    nullifier. *)
Theorem nullifier_checked_before_root (now : Z) (s s' : TreeState) (reqBody : jsval)
    (r : response) :
  handler now s reqBody = (s', r) ->
  (forall c n cr, stage_of now reqBody = Proceed c n cr ->
     set_has (nullifiers s) n = true ->
     r = reject400 MSG_NULLIFIER_USED /\ s' = s) /\
  (r = reject400 MSG_ROOT_MISMATCH ->
     exists c n cr, stage_of now reqBody = Proceed c n cr /\
                    set_has (nullifiers s) n = false).
Proof.
  intros Hh; split.
  - intros c n cr Hst Hn.
    rewrite (handler_proceed now s reqBody c n cr Hst), apply_request_reused in Hh by exact Hn.
    injection Hh as <- <-; split; reflexivity.
  - intros Hr; subst r.
    destruct (stage_of now reqBody) as [r0|c n cr] eqn:Hst.
    + rewrite (handler_reject now s reqBody r0 Hst) in Hh.
      injection Hh as _ Hr0; subst r0.
      destruct (stage_reject_not_admission now reqBody _ Hst) as [_ Hne].
      contradiction.
    + exists c, n, cr; split; [reflexivity|].
      destruct (set_has (nullifiers s) n) eqn:Hn; [|reflexivity].
      rewrite (handler_proceed now s reqBody c n cr Hst), apply_request_reused in Hh by exact Hn.
      injection Hh as _ Heq; discriminate Heq.
Qed.

(** Claim C4: for a request that passed the proof stage with a fresh
    nullifier, the server rejects with [StaleRoot] exactly when the
    claimed root is neither the string ['0'] nor the current root, and
    such a rejection leaves the state unchanged. In the worker,
    [verifyAndUpdate] likewise returns failure with the state unchanged
    exactly when the claimed root is neither. *)
Theorem root_check_sentinel_or_current (now : Z) (s : TreeState) (reqBody c n cr : jsval) :
  stage_of now reqBody = Proceed c n cr ->
  set_has (nullifiers s) n = false ->
  (snd (handler now s reqBody) = reject400 MSG_ROOT_MISMATCH <->
     js_same cr (JStr "0") = false /\ js_same cr (JStr (root s)) = false) /\
  (snd (handler now s reqBody) = reject400 MSG_ROOT_MISMATCH -> fst (handler now s reqBody) = s) /\
  (forall (proof publicSignals : jsval),
     groth16_verify publicSignals proof = Some true ->
     set_has (nullifiers s) (get_index publicSignals 3) = false ->
     (Worker.verifyAndUpdate poseidonHash true groth16_verify s proof publicSignals
        = (s, (false, root s)) <->
      js_same (get_index publicSignals 4) (JStr "0") = false /\
      js_same (get_index publicSignals 4) (JStr (root s)) = false)).
Proof.
  intros Hst Hn.
  rewrite (handler_proceed now s reqBody c n cr Hst).
  unfold apply_request; rewrite Hn.
  split; [|split].
  - destruct (js_same cr (JStr "0")); destruct (js_same cr (JStr (root s))); simpl.
    all: try (split; intros; auto; fail).
    all: destruct_update; simpl.
    all: split; [discriminate | intros [Hf Hg]; congruence].
  - destruct (js_same cr (JStr "0")); destruct (js_same cr (JStr (root s))); simpl.
    all: try reflexivity.
    all: destruct_update; simpl; discriminate.
  - intros proof ps Hv Hn'.
    unfold Worker.verifyAndUpdate; simpl negb; cbv iota; rewrite Hv, Hn'.
    destruct (js_same (get_index ps 4) (JStr "0"));
      destruct (js_same (get_index ps 4) (JStr (root s))); simpl.
    all: try (split; intros; auto; fail).
    all: split; [|intros [Hf Hg]; congruence].
    all: unfold updateMerkleTree; simpl.
    all: destruct (js_BigInt (get_index ps 2)); intros Heq; injection Heq as Heq.
    all: apply (f_equal (fun st => length (nullifiers st))) in Heq; simpl in Heq.
    all: unfold set_add in Heq; rewrite Hn', length_app in Heq; simpl in Heq; lia.
Qed.

(** Claim C8: in offchain mode, when [publicSignals[4]] is missing or
    falsy, the claimed root is the sentinel ['0'] and the request is never
    rejected as [StaleRoot], whatever the current root. *)
Theorem offchain_missing_root_defaults (now : Z) (s : TreeState) (reqBody : jsval) :
  truthy (get_prop reqBody "offchain") = true ->
  truthy (get_index (get_prop reqBody "publicSignals") 4) = false ->
  (forall c n cr, stage_of now reqBody = Proceed c n cr -> cr = JStr "0") /\
  snd (handler now s reqBody) <> reject400 MSG_ROOT_MISMATCH.
Proof.
  intros Hoff H4.
  assert (Hcr : forall c n cr, stage_of now reqBody = Proceed c n cr -> cr = JStr "0").
  { intros c n cr Hst; unfold proof_stage in Hst; cbv zeta in Hst.
    rewrite Hoff, H4 in Hst.
    split_match Hst; try discriminate Hst; injection Hst as _ _ <-; reflexivity. }
  split; [exact Hcr|].
  destruct (stage_of now reqBody) as [r|c n cr] eqn:Hst.
  - rewrite (handler_reject now s reqBody r Hst); simpl.
    apply (stage_reject_not_admission now reqBody r Hst).
  - rewrite (handler_proceed now s reqBody c n cr Hst), (Hcr c n cr eq_refl).
    unfold apply_request.
    destruct (set_has (nullifiers s) n); simpl; [discriminate|].
    destruct_update; simpl; discriminate.
Qed.

Lemma stage_reject_not_missing (now : Z) (reqBody : jsval) (r : response) :
  truthy (get_prop reqBody "publicSignals") = true ->
  stage_of now reqBody = Reject r -> r <> reject400 MSG_MISSING.
Proof.
  unfold proof_stage; cbv zeta; intros Hps Hst.
  rewrite Hps in Hst; cbn [negb] in Hst.
  split_match Hst; try discriminate Hst; injection Hst as <-; discriminate.
Qed.

Lemma apply_request_not_missing (s : TreeState) (m : bool) (c n cr : jsval) :
  snd (apply_request poseidonHash s m c n cr) <> reject400 MSG_MISSING.
Proof.
  unfold apply_request.
  destruct (set_has (nullifiers s) n); [cbn [snd]; discriminate|].
  destruct (negb (js_same cr (JStr "0")) && negb (js_same cr (JStr (root s))));
    [cbn [snd]; discriminate|].
  destruct_update; cbn [snd]; discriminate.
Qed.

(** Claim C6 (amended): the only check of the [Received] step is that
    [publicSignals] is present: a request whose [publicSignals] is
    missing or falsy is rejected with [Missing publicSignals] (400) and
    the state is unchanged, and no request with a truthy [publicSignals]
    gets that answer. Neither the number nor the types of the public
    signals are checked: in offchain mode the answer depends on
    [publicSignals] only through its elements 1 and 4, and not on the
    [proof] field at all; in ZK mode the server reads [publicSignals]
    only through [groth16.verify]'s verdict and its elements 2, 3 and 4. *)
Theorem missing_publicSignals_rejected (now : Z) (s : TreeState) (reqBody reqBody' : jsval) :
  (truthy (get_prop reqBody "publicSignals") = false ->
     handler now s reqBody = (s, reject400 MSG_MISSING)) /\
  (truthy (get_prop reqBody "publicSignals") = true ->
     snd (handler now s reqBody) <> reject400 MSG_MISSING) /\
  (truthy (get_prop reqBody "publicSignals") = true ->
   truthy (get_prop reqBody' "publicSignals") = true ->
   truthy (get_prop reqBody "offchain") = true ->
   get_prop reqBody' "offchain" = get_prop reqBody "offchain" ->
   get_index (get_prop reqBody' "publicSignals") 1 = get_index (get_prop reqBody "publicSignals") 1 ->
   get_index (get_prop reqBody' "publicSignals") 4 = get_index (get_prop reqBody "publicSignals") 4 ->
   handler now s reqBody' = handler now s reqBody) /\
  (truthy (get_prop reqBody "publicSignals") = true ->
   truthy (get_prop reqBody' "publicSignals") = true ->
   truthy (get_prop reqBody "offchain") = false ->
   truthy (get_prop reqBody' "offchain") = false ->
   get_prop reqBody' "proof" = get_prop reqBody "proof" ->
   groth16_verify (get_prop reqBody' "publicSignals") (get_prop reqBody "proof") =
     groth16_verify (get_prop reqBody "publicSignals") (get_prop reqBody "proof") ->
   get_index (get_prop reqBody' "publicSignals") 2 = get_index (get_prop reqBody "publicSignals") 2 ->
   get_index (get_prop reqBody' "publicSignals") 3 = get_index (get_prop reqBody "publicSignals") 3 ->
   get_index (get_prop reqBody' "publicSignals") 4 = get_index (get_prop reqBody "publicSignals") 4 ->
   handler now s reqBody' = handler now s reqBody).
Proof.
  split; [|split; [|split]].
  - intros Hps; unfold verify_handler, proof_stage; cbv zeta.
    rewrite Hps; reflexivity.
  - intros Hps.
    destruct (stage_of now reqBody) as [r|c n cr] eqn:Hst.
    + rewrite (handler_reject now s reqBody r Hst); cbn [snd].
      exact (stage_reject_not_missing now reqBody r Hps Hst).
    + rewrite (handler_proceed now s reqBody c n cr Hst).
      apply apply_request_not_missing.
  - intros Hps Hps' Hoff Hoff' H1 H4.
    unfold verify_handler, proof_stage; cbv zeta.
    rewrite Hps, Hps', Hoff', Hoff, H1, H4; reflexivity.
  - intros Hps Hps' Hoff Hoff' Hpr Hgv H2 H3 H4.
    unfold verify_handler, proof_stage; cbv zeta.
    rewrite Hps, Hps', Hoff, Hoff', Hpr, Hgv, H2, H3, H4; reflexivity.
Qed.

(** The values the proof stage yields do not depend on the time. *)
Lemma stage_proceed_values (now : Z) (reqBody c n cr : jsval) :
  stage_of now reqBody = Proceed c n cr ->
  (c, n, cr) =
    (if truthy (get_prop reqBody "offchain") then
       (get_prop (get_prop reqBody "offchain") "commitment",
        get_prop (get_prop reqBody "offchain") "nullifier",
        if truthy (get_index (get_prop reqBody "publicSignals") 4)
        then get_index (get_prop reqBody "publicSignals") 4 else JStr "0")
     else
       (get_index (get_prop reqBody "publicSignals") 2,
        get_index (get_prop reqBody "publicSignals") 3,
        get_index (get_prop reqBody "publicSignals") 4)).
Proof.
  intros Hst; unfold proof_stage in Hst; cbv zeta in Hst.
  destruct (truthy (get_prop reqBody "offchain")).
  - split_match Hst; try discriminate Hst; injection Hst as <- <- <-; reflexivity.
  - split_match Hst; try discriminate Hst; injection Hst as <- <- <-; reflexivity.
Qed.

Lemma stage_zk_time_independent (now now' : Z) (reqBody : jsval) :
  truthy (get_prop reqBody "offchain") = false ->
  stage_of now' reqBody = stage_of now reqBody.
Proof. intros Hoff; unfold proof_stage; cbv zeta; rewrite Hoff; reflexivity. Qed.

Lemma update_nullifiers (st : TreeState) (c : jsval) :
  nullifiers (fst (updateMerkleTree poseidonHash st c)) = nullifiers st.
Proof. unfold updateMerkleTree; destruct (js_BigInt c); reflexivity. Qed.

Lemma js_same_refl (v : jsval) : is_primitive v = true -> js_same v v = true.
Proof.
  destruct v; simpl; intros H; try discriminate H; try reflexivity.
  - apply Bool.eqb_reflx.
  - apply Z.eqb_refl.
  - apply String.eqb_refl.
Qed.

Lemma set_has_add (xs : list jsval) (v : jsval) :
  is_primitive v = true -> set_has (set_add xs v) v = true.
Proof.
  intros Hp; unfold set_add.
  destruct (set_has xs v) eqn:Hh; [exact Hh|].
  unfold set_has; rewrite existsb_app; simpl; rewrite js_same_refl by exact Hp.
  apply orb_true_r.
Qed.

Lemma apply_request_success_inv (st s1 : TreeState) (m : bool) (c n cr : jsval) (r1 : response) :
  apply_request poseidonHash st m c n cr = (s1, r1) -> status r1 = 200 ->
  set_has (nullifiers st) n = false /\ nullifiers s1 = set_add (nullifiers st) n.
Proof.
  unfold apply_request; intros Ha H200.
  destruct (set_has (nullifiers st) n).
  { injection Ha as _ <-; discriminate H200. }
  split; [reflexivity|].
  destruct (negb (js_same cr (JStr "0")) && negb (js_same cr (JStr (root st)))).
  { injection Ha as _ <-; discriminate H200. }
  pose proof (update_nullifiers
                {| root := root st; leaves := leaves st;
                   nullifiers := set_add (nullifiers st) n |} c) as Hu.
  destruct (updateMerkleTree poseidonHash _ c) as [s2 [nr|]];
    injection Ha as <- _; exact Hu.
Qed.

(** Re-running the proof stage of an admitted offchain request at another
    time, when its timestamp is a JSON number [t]: it fails exactly when
    the new time is more than a day away from [t]. *)
Lemma stage_offchain_retime (now now' t : Z) (reqBody c n cr : jsval) :
  truthy (get_prop reqBody "offchain") = true ->
  get_prop (get_prop reqBody "offchain") "timestamp" = JNum t ->
  stage_of now reqBody = Proceed c n cr ->
  stage_of now' reqBody =
    if Z.abs (now' / 1000 - t) >? 86400 then Reject (reject400 MSG_OFFCHAIN_FAILED)
    else Proceed c n cr.
Proof.
  intros Hoff Hts Hst; unfold proof_stage in *; cbv zeta in *.
  rewrite Hoff in *.
  destruct (negb (truthy (get_prop reqBody "publicSignals"))); [discriminate Hst|].
  destruct (get_prop (get_prop reqBody "offchain") "nullifier"); try discriminate Hst.
  destruct (get_prop (get_prop reqBody "offchain") "commitment"); try discriminate Hst.
  destruct (js_BigInt (get_index (get_prop reqBody "publicSignals") 1)); [|discriminate Hst].
  unfold verifyOffchainSignature in *; cbv zeta in *; rewrite Hts in *; cbn [js_ToNumber] in *.
  destruct (Z.abs (now / 1000 - t) >? 86400); [discriminate Hst|].
  destruct (Z.abs (now' / 1000 - t) >? 86400); [reflexivity|exact Hst].
Qed.

(** Claim C1 (amended): a request that passes the proof stage while its
    nullifier is in the set gets [NullifierReused] (400) with the state
    unchanged; a request that fails the proof stage gets that stage's
    rejection, never [NullifierReused], with the state unchanged. After a
    request is admitted (its nullifier a JSON string or number), its
    nullifier is in the set, and in every later state whose nullifier set
    still holds the nullifiers of that moment, resubmitting it gets
    [NullifierReused] whenever the resubmission passes the proof stage
    again: always in ZK mode, where the proof stage does not depend on
    the time; in offchain mode with a numeric timestamp [t], while the
    server time is within a day of [t], and ['Offchain proof
    verification failed'] once it is not. *)
Theorem replay_rejected (now now' : Z) (s s1 : TreeState) (reqBody : jsval) (r1 : response) :
  (forall c n cr, stage_of now reqBody = Proceed c n cr -> set_has (nullifiers s) n = true ->
     handler now s reqBody = (s, reject400 MSG_NULLIFIER_USED)) /\
  (forall r, stage_of now reqBody = Reject r ->
     handler now s reqBody = (s, r) /\ r <> reject400 MSG_NULLIFIER_USED) /\
  (forall c n cr, stage_of now reqBody = Proceed c n cr -> is_primitive n = true ->
     handler now s reqBody = (s1, r1) -> status r1 = 200 ->
     set_has (nullifiers s1) n = true /\
     forall st : TreeState,
       (forall v, set_has (nullifiers s1) v = true -> set_has (nullifiers st) v = true) ->
       (forall c' n' cr', stage_of now' reqBody = Proceed c' n' cr' ->
          handler now' st reqBody = (st, reject400 MSG_NULLIFIER_USED)) /\
       (truthy (get_prop reqBody "offchain") = false ->
          handler now' st reqBody = (st, reject400 MSG_NULLIFIER_USED)) /\
       (forall t, truthy (get_prop reqBody "offchain") = true ->
          get_prop (get_prop reqBody "offchain") "timestamp" = JNum t ->
          handler now' st reqBody =
            (st, if Z.abs (now' / 1000 - t) >? 86400 then reject400 MSG_OFFCHAIN_FAILED
                 else reject400 MSG_NULLIFIER_USED))).
Proof.
  split; [|split].
  - intros c n cr Hst Hn.
    rewrite (handler_proceed now s reqBody c n cr Hst).
    apply apply_request_reused; exact Hn.
  - intros r Hst; split.
    + apply handler_reject; exact Hst.
    + apply (stage_reject_not_admission now reqBody r Hst).
  - intros c n cr Hst Hprim Hh H200.
    rewrite (handler_proceed now s reqBody c n cr Hst) in Hh.
    destruct (apply_request_success_inv s s1 _ c n cr r1 Hh H200) as [_ Hnul].
    assert (Hin : set_has (nullifiers s1) n = true)
      by (rewrite Hnul; apply set_has_add; exact Hprim).
    split; [exact Hin|].
    intros st Hsub.
    assert (Hre : forall c' n' cr', stage_of now' reqBody = Proceed c' n' cr' ->
              handler now' st reqBody = (st, reject400 MSG_NULLIFIER_USED)).
    { intros c' n' cr' Hst'.
      pose proof (stage_proceed_values now reqBody c n cr Hst) as V.
      pose proof (stage_proceed_values now' reqBody c' n' cr' Hst') as V'.
      rewrite <- V in V'; injection V' as _ -> _.
      rewrite (handler_proceed now' st reqBody c' n cr' Hst').
      apply apply_request_reused; apply Hsub; exact Hin. }
    split; [exact Hre|split].
    + intros Hoff.
      apply (Hre c n cr).
      rewrite (stage_zk_time_independent now now' reqBody Hoff); exact Hst.
    + intros t Hoff Hts.
      pose proof (stage_offchain_retime now now' t reqBody c n cr Hoff Hts Hst) as Hr.
      destruct (Z.abs (now' / 1000 - t) >? 86400).
      * apply handler_reject; exact Hr.
      * exact (Hre c n cr Hr).
Qed.

Lemma map_set_length (m : list (jsval * string)) (k : jsval) (x : string) :
  map_has m k = true -> length (map_set m k x) = length m.
Proof.
  induction m as [|[k' y] m IH]; simpl; [discriminate|].
  destruct (js_same k k'); simpl; [reflexivity|].
  intros H; rewrite IH by exact H; reflexivity.
Qed.

Lemma map_set_has (m : list (jsval * string)) (k : jsval) (x : string) :
  is_primitive k = true -> map_has (map_set m k x) k = true.
Proof.
  intros Hp; induction m as [|[k' y] m IH]; simpl.
  - rewrite js_same_refl by exact Hp; reflexivity.
  - destruct (js_same k k') eqn:E; simpl; rewrite ?E; [reflexivity|].
    rewrite IH; apply orb_true_r.
Qed.

(** Claim C10: inserting a commitment that is already a leaf keeps the
    number of leaves and sets the root to [H(c, count)]; after inserting
    a commitment (a JSON string or number) it is a leaf, and inserting
    it again right away changes neither the root nor the leaf count. *)
Theorem update_existing_commitment (s : TreeState) (c : jsval) (v : Z) :
  js_BigInt c = Some v ->
  (map_has (leaves s) c = true ->
     length (leaves (fst (updateMerkleTree poseidonHash s c))) = length (leaves s) /\
     root (fst (updateMerkleTree poseidonHash s c)) =
       dec_of_Z (poseidonHash [v; Z.of_nat (length (leaves s))])) /\
  (is_primitive c = true ->
     let s1 := fst (updateMerkleTree poseidonHash s c) in
     map_has (leaves s1) c = true /\
     root (fst (updateMerkleTree poseidonHash s1 c)) = root s1 /\
     length (leaves (fst (updateMerkleTree poseidonHash s1 c))) = length (leaves s1)).
Proof.
  intros Hv.
  assert (Hex : forall st, map_has (leaves st) c = true ->
            length (leaves (fst (updateMerkleTree poseidonHash st c))) = length (leaves st) /\
            root (fst (updateMerkleTree poseidonHash st c)) =
              dec_of_Z (poseidonHash [v; Z.of_nat (length (leaves st))])).
  { intros st Hm; unfold updateMerkleTree; rewrite Hv; simpl.
    rewrite map_set_length by exact Hm; split; reflexivity. }
  split; [exact (Hex s)|].
  intros Hp s1.
  assert (Hm1 : map_has (leaves s1) c = true).
  { unfold s1, updateMerkleTree; rewrite Hv; simpl; apply map_set_has; exact Hp. }
  destruct (Hex s1 Hm1) as [Hlen Hroot].
  split; [exact Hm1|]; split; [|exact Hlen].
  rewrite Hroot; unfold s1, updateMerkleTree; rewrite Hv; reflexivity.
Qed.

Lemma update_congr (st1 st2 : TreeState) (c : jsval) :
  root st1 = root st2 -> leaves st1 = leaves st2 ->
  root (fst (updateMerkleTree poseidonHash st1 c)) = root (fst (updateMerkleTree poseidonHash st2 c)) /\
  leaves (fst (updateMerkleTree poseidonHash st1 c)) = leaves (fst (updateMerkleTree poseidonHash st2 c)).
Proof.
  intros Hr Hl; unfold updateMerkleTree; rewrite Hr, Hl.
  destruct (js_BigInt c); split; reflexivity.
Qed.

Lemma insert_all_congr (cs : list jsval) : forall st1 st2 : TreeState,
  root st1 = root st2 -> leaves st1 = leaves st2 ->
  root (insert_all poseidonHash st1 cs) = root (insert_all poseidonHash st2 cs) /\
  leaves (insert_all poseidonHash st1 cs) = leaves (insert_all poseidonHash st2 cs).
Proof.
  induction cs as [|c cs IH]; intros st1 st2 Hr Hl; simpl.
  - split; assumption.
  - destruct (update_congr st1 st2 c Hr Hl) as [Hr' Hl'].
    apply IH; assumption.
Qed.

Lemma insert_all_snoc (st : TreeState) (cs : list jsval) (c : jsval) :
  insert_all poseidonHash st (cs ++ [c]) = fst (updateMerkleTree poseidonHash (insert_all poseidonHash st cs) c).
Proof. revert st; induction cs as [|c0 cs IH]; intros st; simpl; [reflexivity|apply IH]. Qed.

(** Claim C7: the root is a function of the inserted sequence. Two
    empty accumulators (root ['0'], no leaves; their nullifier sets may
    differ) reach the same root and the same leaves after inserting the
    same commitments; and after a sequence ending in a commitment [c]
    with [BigInt(c) = v], the root is [H(v, number of leaves)]. *)
Theorem root_determined_by_insertions (cs : list jsval) (s1 s2 : TreeState) :
  root s1 = "0"%string -> leaves s1 = [] -> root s2 = "0"%string -> leaves s2 = [] ->
  root (insert_all poseidonHash s1 cs) = root (insert_all poseidonHash s2 cs) /\
  leaves (insert_all poseidonHash s1 cs) = leaves (insert_all poseidonHash s2 cs) /\
  (forall prefix c v, cs = prefix ++ [c] -> js_BigInt c = Some v ->
     root (insert_all poseidonHash s1 cs) =
       dec_of_Z (poseidonHash [v; Z.of_nat (length (leaves (insert_all poseidonHash s1 cs)))])).
Proof.
  intros Hr1 Hl1 Hr2 Hl2.
  destruct (insert_all_congr cs s1 s2 ltac:(congruence) ltac:(congruence)) as [Hr Hl].
  split; [exact Hr|]; split; [exact Hl|].
  intros prefix c v -> Hv.
  rewrite insert_all_snoc; unfold updateMerkleTree; rewrite Hv; reflexivity.
Qed.

(** With a numeric timestamp, [verifyOffchainSignature] accepts exactly
    when the timestamp is within a day of the server time, both values
    parse as nonzero big integers and the signature is a string of at
    least 16 characters; its content is never inspected. *)
Lemma verify_offchain_numeric (sg : jsval) (ds nc t : Z) (c n : jsval) (now : Z) :
  verifyOffchainSignature sg ds nc (JNum t) c n now = true <->
  Z.abs (now / 1000 - t) <= 86400 /\
  (exists vc vn, js_BigInt c = Some vc /\ vc <> 0 /\ js_BigInt n = Some vn /\ vn <> 0) /\
  (exists str, sg = JStr str /\ (16 <= String.length str)%nat).
Proof.
  unfold verifyOffchainSignature; cbn [js_ToNumber]; cbv zeta.
  rewrite Z.gtb_ltb.
  destruct (86400 <? Z.abs (now / 1000 - t)) eqn:Et.
  { apply Z.ltb_lt in Et; split; [discriminate|]; intros [Hle _]; lia. }
  apply Z.ltb_ge in Et.
  destruct (js_BigInt c) as [vc|].
  2:{ split; [discriminate|]; intros (_ & (vc & vn & H & _) & _); discriminate H. }
  destruct (js_BigInt n) as [vn|].
  2:{ split; [discriminate|]; intros (_ & (vc' & vn & _ & _ & H & _) & _); discriminate H. }
  destruct (vc =? 0) eqn:Ec0; simpl.
  { split; [discriminate|]; intros (_ & (vc' & vn' & H1 & H2 & _) & _).
    injection H1 as <-; apply Z.eqb_eq in Ec0; contradiction. }
  destruct (vn =? 0) eqn:En0; simpl.
  { split; [discriminate|]; intros (_ & (vc' & vn' & _ & _ & H3 & H4) & _).
    injection H3 as <-; apply Z.eqb_eq in En0; contradiction. }
  apply Z.eqb_neq in Ec0; apply Z.eqb_neq in En0.
  destruct sg as [| |b|z|str|l|l].
  all: try (rewrite ?orb_true_r; split;
            [discriminate | intros (_ & _ & str' & H & _); discriminate H]).
  destruct (Nat.ltb (String.length str) 16) eqn:El.
  - rewrite orb_true_r; split; [discriminate|].
    intros (_ & _ & str' & H & Hl); injection H as <-.
    apply Nat.ltb_lt in El; lia.
  - apply Nat.ltb_ge in El.
    destruct str as [|a str0]; [simpl in El; lia|]; simpl.
    split; [intros _|reflexivity].
    split; [exact Et|]; split.
    + exists vc, vn; repeat split; assumption.
    + exists (String a str0); split; [reflexivity|exact El].
Qed.

(** Claim C9 (the divergence): with a numeric timestamp the acceptance
    condition is the stated one; but with no [timestamp] in the offchain
    object, [currentTime - timestamp] is [NaN], [NaN > 86400] is false,
    and [verifyOffchainSignature] accepts at every server time; the
    handler then admits such a request into a fresh tree. *)
Theorem offchain_signature_accepts_missing_timestamp (now : Z) :
  (forall sg ds nc t c n,
     verifyOffchainSignature sg ds nc (JNum t) c n now = true <->
     Z.abs (now / 1000 - t) <= 86400 /\
     (exists vc vn, js_BigInt c = Some vc /\ vc <> 0 /\ js_BigInt n = Some vn /\ vn <> 0) /\
     (exists str, sg = JStr str /\ (16 <= String.length str)%nat)) /\
  verifyOffchainSignature (JStr "0123456789abcdef") 5 255 JUndefined
    (JStr "123") (JStr "77") now = true /\
  status (snd (handler now initial_state Samples.untimed_request)) = 200.
Proof.
  split; [intros; apply verify_offchain_numeric|].
  split; reflexivity.
Qed.

End Claims.
End ServerClaims.

(* ================================================================== *)
(** ** Instances at concrete requests *)

Module ServerInstances.
Import Js Server Samples ServerClaims.
Local Open Scope string_scope.
Local Open Scope Z_scope.

Local Abbreviation H8 := Worker.poseidonHash_prefix8.

(** A ZK request with a fresh nullifier and a stale root is rejected as a
    root mismatch, with the state unchanged. *)
Lemma root_check_sentinel_or_current_witness :
  snd (verify_handler H8 true accept_all t0_ms used_state (zk_request (JStr "88") (JStr "555")))
    = reject400 MSG_ROOT_MISMATCH /\
  fst (verify_handler H8 true accept_all t0_ms used_state (zk_request (JStr "88") (JStr "555")))
    = used_state.
Proof.
  destruct (root_check_sentinel_or_current H8 true accept_all t0_ms used_state
              (zk_request (JStr "88") (JStr "555")) (JStr "123") (JStr "88") (JStr "555")
              ltac:(vm_compute; reflexivity) ltac:(vm_compute; reflexivity))
    as [Hiff [Hstale _]].
  assert (Hr : snd (verify_handler H8 true accept_all t0_ms used_state
                      (zk_request (JStr "88") (JStr "555"))) = reject400 MSG_ROOT_MISMATCH)
    by (apply Hiff; vm_compute; split; reflexivity).
  split; [exact Hr | exact (Hstale Hr)].
Defined.

(** An offchain request reusing nullifier ["77"] with a stale root gets
    [NullifierReused], not [StaleRoot]. *)
Lemma nullifier_checked_before_root_witness :
  snd (verify_handler H8 false throwing_verify t0_ms used_state
         (offchain_request (JNum 1700000000) (JStr "555")))
    = reject400 MSG_NULLIFIER_USED /\
  fst (verify_handler H8 false throwing_verify t0_ms used_state
         (offchain_request (JNum 1700000000) (JStr "555")))
    = used_state.
Proof.
  exact (proj1 (nullifier_checked_before_root H8 false throwing_verify t0_ms used_state
                  (fst (verify_handler H8 false throwing_verify t0_ms used_state
                          (offchain_request (JNum 1700000000) (JStr "555"))))
                  (offchain_request (JNum 1700000000) (JStr "555"))
                  (snd (verify_handler H8 false throwing_verify t0_ms used_state
                          (offchain_request (JNum 1700000000) (JStr "555"))))
                  ltac:(vm_compute; reflexivity))
           (JStr "123") (JStr "77") (JStr "555")
           ltac:(vm_compute; reflexivity) ltac:(vm_compute; reflexivity)).
Defined.

(** An offchain request whose fifth signal is the empty string, against a
    tree whose root has moved on. *)
Lemma offchain_missing_root_defaults_witness :
  (forall c n cr, proof_stage false throwing_verify t0_ms
                    (offchain_request (JNum 1700000000) (JStr "")) = Proceed c n cr ->
                  cr = JStr "0") /\
  snd (verify_handler H8 false throwing_verify t0_ms moved_state
         (offchain_request (JNum 1700000000) (JStr "")))
    <> reject400 MSG_ROOT_MISMATCH.
Proof.
  apply (offchain_missing_root_defaults H8 false throwing_verify t0_ms moved_state
           (offchain_request (JNum 1700000000) (JStr ""))).
  - vm_compute; reflexivity.
  - vm_compute; reflexivity.
Defined.

(** A ZK request admitted at [t0] and resubmitted a day later. *)
Lemma replay_rejected_witness :
  verify_handler H8 true accept_all t1_ms
    (fst (verify_handler H8 true accept_all t0_ms initial_state (zk_request (JStr "77") (JStr "0"))))
    (zk_request (JStr "77") (JStr "0"))
  = (fst (verify_handler H8 true accept_all t0_ms initial_state (zk_request (JStr "77") (JStr "0"))),
     reject400 MSG_NULLIFIER_USED).
Proof.
  destruct (proj2 (proj2 (replay_rejected H8 true accept_all t0_ms t1_ms initial_state
           (fst (verify_handler H8 true accept_all t0_ms initial_state
                   (zk_request (JStr "77") (JStr "0"))))
           (zk_request (JStr "77") (JStr "0"))
           (snd (verify_handler H8 true accept_all t0_ms initial_state
                   (zk_request (JStr "77") (JStr "0"))))))
           (JStr "123") (JStr "77") (JStr "0")
           ltac:(vm_compute; reflexivity) ltac:(vm_compute; reflexivity)
           ltac:(vm_compute; reflexivity) ltac:(vm_compute; reflexivity)) as [_ Hall].
  apply (proj1 (proj2 (Hall _ (fun v Hv => Hv)))).
  vm_compute; reflexivity.
Defined.

(** The offchain request of the client, admitted at [t0] and resubmitted
    a day and a second later: its nullifier is in the set, but the reply
    is the failed offchain check, not [NullifierReused]. *)
Lemma offchain_replay_reported_as_failed_proof :
  status (snd (verify_handler H8 false throwing_verify t0_ms initial_state
                 (offchain_request (JNum 1700000000) (JStr "0")))) = 200 /\
  set_has (nullifiers (fst (verify_handler H8 false throwing_verify t0_ms initial_state
                              (offchain_request (JNum 1700000000) (JStr "0")))))
          (JStr "77") = true /\
  verify_handler H8 false throwing_verify t1_ms
    (fst (verify_handler H8 false throwing_verify t0_ms initial_state
            (offchain_request (JNum 1700000000) (JStr "0"))))
    (offchain_request (JNum 1700000000) (JStr "0"))
  = (fst (verify_handler H8 false throwing_verify t0_ms initial_state
            (offchain_request (JNum 1700000000) (JStr "0"))),
     reject400 MSG_OFFCHAIN_FAILED).
Proof.
  refine (conj _ (conj _ _)); vm_compute; reflexivity.
Qed.

(** A request without a proof, whose [publicSignals] has two elements
    and a first element that is not a number, is admitted. *)
Lemma short_signals_admitted :
  truthy (get_prop short_signals_request "proof") = false /\
  status (snd (verify_handler H8 false throwing_verify t0_ms initial_state
                 short_signals_request)) = 200.
Proof.
  split; vm_compute; reflexivity.
Qed.

(** Two empty trees with different nullifier sets, after the same three
    insertions. *)
Lemma root_determined_by_insertions_witness :
  root (insert_all H8 initial_state [JStr "1"; JStr "2"; JStr "1"])
  = root (insert_all H8 empty_with_nullifier [JStr "1"; JStr "2"; JStr "1"]).
Proof.
  exact (proj1 (root_determined_by_insertions H8 [JStr "1"; JStr "2"; JStr "1"]
                  initial_state empty_with_nullifier
                  ltac:(reflexivity) ltac:(reflexivity) ltac:(reflexivity) ltac:(reflexivity))).
Defined.

(** Inserting the existing leaf ["42"] again. *)
Lemma update_existing_commitment_witness :
  length (leaves (fst (Server.updateMerkleTree H8 moved_state (JStr "42"))))
    = length (leaves moved_state) /\
  root (fst (Server.updateMerkleTree H8 moved_state (JStr "42")))
    = dec_of_Z (H8 [42; Z.of_nat (length (leaves moved_state))]).
Proof.
  exact (proj1 (update_existing_commitment H8 moved_state (JStr "42") 42
                  ltac:(vm_compute; reflexivity)) ltac:(vm_compute; reflexivity)).
Defined.

(** No [publicSignals]: rejected. The two-element [publicSignals] of
    [short_signals_request], without a proof, gets the same answer as the
    client's five signals. *)
Lemma missing_publicSignals_rejected_witness :
  verify_handler H8 false throwing_verify t0_ms used_state
    (JObj [("offchain", offchain_object (JNum 1700000000))])
  = (used_state, reject400 MSG_MISSING) /\
  verify_handler H8 false throwing_verify t0_ms initial_state short_signals_request
  = verify_handler H8 false throwing_verify t0_ms initial_state
      (offchain_request (JNum 1700000000) JUndefined).
Proof.
  split.
  - apply (proj1 (missing_publicSignals_rejected H8 false throwing_verify t0_ms used_state
                    (JObj [("offchain", offchain_object (JNum 1700000000))])
                    (JObj [("offchain", offchain_object (JNum 1700000000))]))).
    vm_compute; reflexivity.
  - apply (proj1 (proj2 (proj2 (missing_publicSignals_rejected H8 false throwing_verify t0_ms
                    initial_state (offchain_request (JNum 1700000000) JUndefined)
                    short_signals_request)))).
    all: vm_compute; reflexivity.
Defined.

End ServerInstances.


(* ================================================================== *)
(** ** Further properties of the code *)

Module JsFacts.
Import Js.

Lemma dec_char_facts (d : Z) : 0 <= d < 10 ->
  let c := ascii_of_nat (48 + Z.to_nat d) in
  digit_value c = Some d /\ is_ws c = false /\ radix_of_prefix c = None /\
  Ascii.eqb c "+"%char = false /\ Ascii.eqb c "-"%char = false.
Proof.
  intros Hd.
  assert (d = 0 \/ d = 1 \/ d = 2 \/ d = 3 \/ d = 4 \/ d = 5 \/ d = 6 \/ d = 7 \/
          d = 8 \/ d = 9) as Hc by lia.
  repeat destruct Hc as [-> | Hc]; try (subst d); vm_compute; repeat split.
Qed.

Lemma digits_acc_app (r a : Z) (xs ys : list ascii) :
  digits_acc r a (xs ++ ys) =
  match digits_acc r a xs with Some b => digits_acc r b ys | None => None end.
Proof.
  revert a; induction xs as [|c xs IH]; intros a; simpl; [reflexivity|].
  destruct (digit_value c) as [d|]; [|reflexivity].
  destruct (d <? r); [apply IH|reflexivity].
Qed.

Lemma list_ascii_of_string_app (s1 s2 : string) :
  list_ascii_of_string (s1 ++ s2) = list_ascii_of_string s1 ++ list_ascii_of_string s2.
Proof. induction s1 as [|c s1 IH]; simpl; [reflexivity|rewrite IH; reflexivity]. Qed.

Lemma dec_digits_spec (f : nat) : forall (n : Z) (acc : string),
  0 <= n < 10 ^ Z.of_nat (S f) ->
  exists ds, list_ascii_of_string (dec_digits f n acc) = ds ++ list_ascii_of_string acc /\
    ds <> [] /\
    Forall (fun c => exists d, 0 <= d < 10 /\ c = ascii_of_nat (48 + Z.to_nat d)) ds /\
    digits_acc 10 0 ds = Some n /\ n < 10 ^ Z.of_nat (length ds).
Proof.
  induction f as [|f IH]; intros n acc Hn.
  - assert (Hm : n mod 10 = n) by (apply Z.mod_small; simpl in Hn; lia).
    exists [ascii_of_nat (48 + Z.to_nat (n mod 10))].
    cbn [dec_digits]; cbv zeta; rewrite Hm.
    destruct (dec_char_facts n ltac:(simpl in Hn; lia)) as (Hv & _).
    split; [reflexivity|]; split; [discriminate|]; split.
    + constructor; [exists n; split; [simpl in Hn; lia|reflexivity]|constructor].
    + cbn [digits_acc]; rewrite Hv; replace (n <? 10) with true by (symmetry; apply Z.ltb_lt; simpl in Hn; lia).
      split; [reflexivity|simpl in Hn |- *; lia].
  - cbn [dec_digits]; cbv zeta.
    pose proof (Z.mod_pos_bound n 10 ltac:(lia)) as Hb.
    destruct (dec_char_facts (n mod 10) Hb) as (Hv & _).
    destruct (n <? 10) eqn:Hlt.
    + apply Z.ltb_lt in Hlt.
      assert (Hm : n mod 10 = n) by (apply Z.mod_small; lia).
      exists [ascii_of_nat (48 + Z.to_nat (n mod 10))].
      split; [reflexivity|]; split; [discriminate|]; split.
      * constructor; [exists (n mod 10); split; [lia|reflexivity]|constructor].
      * cbn [digits_acc]; rewrite Hv; replace (n mod 10 <? 10) with true by (symmetry; apply Z.ltb_lt; lia).
        rewrite Hm; split; [reflexivity|simpl; lia].
    + apply Z.ltb_ge in Hlt.
      assert (Hn' : 0 <= n / 10 < 10 ^ Z.of_nat (S f)).
      { split; [apply Z.div_pos; lia|].
        apply Z.div_lt_upper_bound; [lia|].
        rewrite <- Z.pow_succ_r by lia. rewrite <- Nat2Z.inj_succ. lia. }
      destruct (IH (n / 10) (String (ascii_of_nat (48 + Z.to_nat (n mod 10))) acc) Hn')
        as (ds & Hds & Hne & Hall & Hval & Hbnd).
      exists (ds ++ [ascii_of_nat (48 + Z.to_nat (n mod 10))]).
      split; [rewrite Hds, <- app_assoc; reflexivity|].
      split; [destruct ds; [contradiction|discriminate]|].
      split; [apply Forall_app; split; [exact Hall|constructor; [exists (n mod 10); split; [lia|reflexivity]|constructor]]|].
      split.
      * rewrite digits_acc_app, Hval; cbn [digits_acc]; rewrite Hv.
        replace (n mod 10 <? 10) with true by (symmetry; apply Z.ltb_lt; lia).
        f_equal; pose proof (Z.div_mod n 10 ltac:(lia)); lia.
      * rewrite length_app, Nat2Z.inj_add, Z.pow_add_r by lia; simpl Z.of_nat.
        pose proof (Z.div_mod n 10 ltac:(lia)); lia.
Qed.

Lemma log2_digits_bound (z : Z) : 0 <= z -> z < 10 ^ Z.of_nat (S (Z.to_nat (Z.log2 z))).
Proof.
  intros Hz.
  rewrite Nat2Z.inj_succ, Z2Nat.id by apply Z.log2_nonneg.
  destruct (Z.eq_dec z 0) as [->|Hnz]; [simpl; lia|].
  destruct (Z.log2_spec z ltac:(lia)) as [_ Hup].
  eapply Z.lt_le_trans; [exact Hup|].
  apply Z.pow_le_mono_l; split; [lia|lia].
Qed.

Lemma dec_of_Z_spec (z : Z) : 0 <= z ->
  exists ds, list_ascii_of_string (dec_of_Z z) = ds /\ ds <> [] /\
    Forall (fun c => exists d, 0 <= d < 10 /\ c = ascii_of_nat (48 + Z.to_nat d)) ds /\
    digits_acc 10 0 ds = Some z /\ z < 10 ^ Z.of_nat (length ds).
Proof.
  intros Hz; unfold dec_of_Z.
  replace (z <? 0) with false by (symmetry; apply Z.ltb_ge; lia).
  destruct (dec_digits_spec (Z.to_nat (Z.log2 z)) z "" (conj Hz (log2_digits_bound z Hz)))
    as (ds & Hds & Hrest).
  exists ds; rewrite Hds, app_nil_r; split; [reflexivity|exact Hrest].
Qed.

Lemma dig_facts (c : ascii) :
  (exists d, 0 <= d < 10 /\ c = ascii_of_nat (48 + Z.to_nat d)) ->
  is_ws c = false /\ radix_of_prefix c = None /\
  Ascii.eqb c "+"%char = false /\ Ascii.eqb c "-"%char = false.
Proof.
  intros [d [Hd Hc]]; rewrite Hc.
  destruct (dec_char_facts d Hd) as (_ & H1 & H2 & H3 & H4); tauto.
Qed.

Lemma drop_ws_digits (cs : list ascii) :
  Forall (fun c => exists d, 0 <= d < 10 /\ c = ascii_of_nat (48 + Z.to_nat d)) cs ->
  drop_ws cs = cs.
Proof.
  destruct cs as [|c cs]; intros Hall; [reflexivity|].
  destruct (dig_facts c (Forall_inv Hall)) as (Hws & _).
  cbn [drop_ws]; rewrite Hws; reflexivity.
Qed.

(** [BigInt(String(z)) = z] for a non-negative integer. *)
Lemma bigint_of_dec (z : Z) : 0 <= z -> string_to_bigint (dec_of_Z z) = Some z.
Proof.
  intros Hz.
  destruct (dec_of_Z_spec z Hz) as (ds & Hds & Hne & Hall & Hval & _).
  unfold string_to_bigint; rewrite Hds.
  unfold trim; rewrite (drop_ws_digits ds Hall).
  rewrite (drop_ws_digits (rev ds)) by (apply Forall_rev; exact Hall).
  rewrite rev_involutive.
  destruct ds as [|c0 [|c1 rest]]; [contradiction| exact Hval |].
  destruct (dig_facts c0 (Forall_inv Hall)) as (_ & _ & Hp0 & Hm0).
  destruct (dig_facts c1 (Forall_inv (Forall_inv_tail Hall))) as (_ & Hr1 & _ & _).
  rewrite Hr1, Hp0, Hm0.
  destruct (Ascii.eqb c0 "0"%char); exact Hval.
Qed.

Lemma js_BigInt_dec (z : Z) : 0 <= z -> js_BigInt (JStr (dec_of_Z z)) = Some z.
Proof. apply bigint_of_dec. Qed.

Lemma dec_of_Z_length (z : Z) (k : nat) : 10 ^ Z.of_nat k <= z ->
  (S k <= length (list_ascii_of_string (dec_of_Z z)))%nat.
Proof.
  intros Hk.
  assert (Hz : 0 <= z) by (pose proof (Z.pow_pos_nonneg 10 (Z.of_nat k)); lia).
  destruct (dec_of_Z_spec z Hz) as (ds & -> & _ & _ & _ & Hlt).
  destruct (Nat.le_gt_cases (S k) (length ds)) as [H|H]; [exact H|].
  exfalso.
  assert (10 ^ Z.of_nat (length ds) <= 10 ^ Z.of_nat k)
    by (apply Z.pow_le_mono_r; lia).
  lia.
Qed.

End JsFacts.

Module CircuitMore.
Import Circuit CircuitFacts.

Lemma mod_double (y c : Z) : 0 < c -> y mod (2 * c) = y mod 2 + 2 * ((y / 2) mod c).
Proof.
  intros Hc.
  symmetry; apply (Z.mod_unique y (2 * c) ((y / 2) / c)).
  - left. pose proof (Z.mod_pos_bound y 2 ltac:(lia)).
    pose proof (Z.mod_pos_bound (y / 2) c Hc). lia.
  - pose proof (Z.div_mod y 2 ltac:(lia)).
    pose proof (Z.div_mod (y / 2) c ltac:(lia)). lia.
Qed.

Lemma bits_value_testbits (x : Z) (m : nat) : forall k : nat,
  bits_value (map (fun i => Z.testbit x (Z.of_nat i)) (seq k m)) =
  (x / 2 ^ Z.of_nat k) mod 2 ^ Z.of_nat m.
Proof.
  induction m as [|m IH]; intros k.
  - simpl. rewrite Z.mod_1_r. reflexivity.
  - cbn [seq map bits_value].
    rewrite IH.
    replace (b2f (Z.testbit x (Z.of_nat k))) with (Z.b2z (Z.testbit x (Z.of_nat k)))
      by (destruct (Z.testbit _ _); reflexivity).
    rewrite Z.testbit_spec' by lia.
    rewrite (Nat2Z.inj_succ m), (Z.pow_succ_r 2 (Z.of_nat m)) by lia.
    rewrite mod_double by (apply Z.pow_pos_nonneg; lia).
    replace (x / 2 ^ Z.of_nat k / 2) with (x / 2 ^ Z.of_nat (S k)); [reflexivity|].
    rewrite Z.div_div by (try apply Z.pow_nonzero; lia).
    rewrite Nat2Z.inj_succ, Z.pow_succ_r by lia. f_equal; ring.
Qed.

Lemma Num2Bits_witness_length (n : nat) (x : Z) : length (Num2Bits_witness n x) = n.
Proof. unfold Num2Bits_witness; rewrite length_map, length_seq; reflexivity. Qed.

Lemma Num2Bits_witness_value (n : nat) (x : Z) :
  0 <= x < 2 ^ Z.of_nat n -> bits_value (Num2Bits_witness n x) = x.
Proof.
  intros Hx; unfold Num2Bits_witness.
  rewrite bits_value_testbits; simpl Z.of_nat at 1.
  rewrite Z.pow_0_r, Z.div_1_r. apply Z.mod_small; exact Hx.
Qed.

(** The bits [Num2Bits(n)] computes for an [n]-bit value satisfy its
    constraints. *)
Lemma Num2Bits_witness_ok (n : nat) (x : Z) :
  0 <= x < 2 ^ Z.of_nat n -> 2 ^ Z.of_nat n <= p -> Num2Bits n x (Num2Bits_witness n x).
Proof.
  intros Hx Hp; split; [apply Num2Bits_witness_length|].
  rewrite Num2Bits_witness_value by exact Hx. apply Z.mod_small; lia.
Qed.

Lemma Num2Bits_witness_top (n : nat) (x : Z) :
  0 <= x < 2 ^ Z.of_nat n -> nth n (Num2Bits_witness (S n) x) false = false.
Proof.
  intros Hx; unfold Num2Bits_witness.
  rewrite seq_S, map_app, app_nth2 by (rewrite length_map, length_seq; lia).
  rewrite length_map, length_seq, Nat.sub_diag; cbn [nth map]; rewrite Nat.add_0_l.
  apply Z.testbit_false; [lia|].
  rewrite Z.div_small by lia. reflexivity.
Qed.

(** [LessThan(n)] with output 1 is satisfiable exactly when the value it
    decomposes, [in[0] + 2^n - in[1]] in the field, is below [2^n]. *)
Lemma LessThan_sat_iff (n : nat) (a b : Z) :
  2 ^ Z.of_nat (S n) < p ->
  (exists bits, LessThan n a b bits 1) <-> fsub (fadd a (2 ^ Z.of_nat n)) b < 2 ^ Z.of_nat n.
Proof.
  intros Hp; split.
  - intros [bits Hlt]; exact (LessThan_out_one n a b bits Hp Hlt).
  - intros Hlt.
    set (x := fsub (fadd a (2 ^ Z.of_nat n)) b) in *.
    assert (Hx0 : 0 <= x) by (unfold x, fsub; apply Z.mod_pos_bound; unfold p; lia).
    assert (H2 : 2 ^ Z.of_nat n < 2 ^ Z.of_nat (S n))
      by (apply Z.pow_lt_mono_r; lia).
    exists (Num2Bits_witness (S n) x); split.
    + apply Num2Bits_witness_ok; lia.
    + rewrite Num2Bits_witness_top by lia. reflexivity.
Qed.

End CircuitMore.

Module CircuitExtras.
Import Circuit CircuitFacts CircuitMore.

(** [consentCheck = GreaterEqThan(8)] on [(newConsent, oldConsent)] with
    output 1: for an 8-bit [oldConsent] and any field element
    [newConsent] it is satisfiable exactly when
    [oldConsent <= newConsent <= oldConsent + 255]. *)
Lemma consentCheck_sat_iff (oldC newC : Z) :
  0 <= oldC < 256 -> 0 <= newC < p ->
  (exists bits, GreaterEqThan 8 newC oldC bits 1) <-> oldC <= newC <= oldC + 255.
Proof.
  intros Ho Hn. unfold GreaterEqThan.
  rewrite LessThan_sat_iff by (unfold p; simpl; lia).
  change (2 ^ Z.of_nat 8) with 256.
  rewrite (fadd_small oldC 256) by (unfold p; lia).
  destruct (Z.eq_dec newC (p - 1)) as [Hmax|Hlt].
  - unfold fadd; rewrite Hmax, Z.sub_add, Z_mod_same_full.
    rewrite fsub_small by (unfold p; lia). unfold p in *; lia.
  - rewrite (fadd_small newC 1) by lia.
    unfold fsub.
    destruct (Z_le_gt_dec newC (oldC + 255)) as [Hle|Hgt].
    + rewrite Z.mod_small by (unfold p in *; lia). lia.
    + rewrite <- (Z_mod_plus_full (oldC + 256 - (newC + 1)) 1 p).
      rewrite Z.mod_small by (unfold p in *; lia). unfold p in *; lia.
Qed.

(** [timeCheck = LessEqThan(32)] on [(currentTime - timestamp, TWO_YEARS)]
    with output 1: for 32-bit times it is satisfiable exactly when
    [currentTime - timestamp <= TWO_YEARS] and
    [timestamp - currentTime <= 2^32 - TWO_YEARS - 1]. *)
Lemma timeCheck_sat_iff (now ts : Z) :
  0 <= now < 2 ^ 32 -> 0 <= ts < 2 ^ 32 ->
  (exists bits, LessEqThan 32 (fsub now ts) TWO_YEARS bits 1) <->
  now - ts <= TWO_YEARS /\ ts - now <= 2 ^ 32 - TWO_YEARS - 1.
Proof.
  intros Hn Ht. unfold LessEqThan.
  rewrite LessThan_sat_iff by (unfold p; simpl; lia).
  change (2 ^ Z.of_nat 32) with (2 ^ 32).
  unfold TWO_YEARS.
  rewrite (fadd_small 63072000 1) by (unfold p; lia).
  unfold fsub, fadd.
  rewrite Z.add_mod_idemp_l by (unfold p; lia).
  rewrite Zminus_mod_idemp_l.
  destruct (Z_le_gt_dec 0 (now - ts + 2 ^ 32 - (63072000 + 1))) as [Hge|Hneg].
  - rewrite Z.mod_small by (unfold p; lia). lia.
  - rewrite <- (Z_mod_plus_full (now - ts + 2 ^ 32 - (63072000 + 1)) 1 p).
    rewrite Z.mod_small by (unfold p; lia). unfold p; lia.
Qed.

End CircuitExtras.

Module ServerMore.
Import Js Server.

Lemma set_add_keeps (xs : list jsval) (n v : jsval) :
  set_has xs v = true -> set_has (set_add xs n) v = true.
Proof.
  intros H; unfold set_add; destruct (set_has xs n); [exact H|].
  unfold set_has in *; rewrite existsb_app, H; reflexivity.
Qed.

Lemma map_set_keeps (m : list (jsval * string)) (k k' : jsval) (x : string) :
  map_has m k' = true -> map_has (map_set m k x) k' = true.
Proof.
  induction m as [|[k0 y] m IH]; simpl; [discriminate|].
  destruct (js_same k k'); destruct (js_same k k0); simpl; intros H;
    try exact H; destruct (js_same k' k0); simpl; try reflexivity; apply IH; exact H.
Qed.

Lemma map_set_length_bounds (m : list (jsval * string)) (k : jsval) (x : string) :
  (length m <= length (map_set m k x) <= S (length m))%nat.
Proof.
  induction m as [|[k0 y] m IH]; simpl; [lia|].
  destruct (js_same k k0); simpl; lia.
Qed.

Lemma map_set_length_new (m : list (jsval * string)) (k : jsval) (x : string) :
  map_has m k = false -> length (map_set m k x) = S (length m).
Proof.
  induction m as [|[k0 y] m IH]; simpl; [reflexivity|].
  destruct (js_same k k0); simpl; [discriminate|].
  intros H; rewrite IH by exact H; reflexivity.
Qed.

Section Handler.

Variable poseidonHash : list Z -> Z.
Variable verificationKey_loaded : bool.
Variable groth16_verify : jsval -> jsval -> option bool.

Local Abbreviation stage_of := (proof_stage verificationKey_loaded groth16_verify).
Local Abbreviation handler := (verify_handler poseidonHash verificationKey_loaded groth16_verify).

(** The four ways [/verify] ends, read off the handler. *)
Lemma handler_cases (now : Z) (s : TreeState) (reqBody : jsval) :
  (exists r, stage_of now reqBody = Reject r /\ handler now s reqBody = (s, r)) \/
  (exists c n cr, stage_of now reqBody = Proceed c n cr /\
     (((set_has (nullifiers s) n = true \/
       js_same cr (JStr "0") || js_same cr (JStr (root s)) = false) /\
      exists r, status r = 400 /\ handler now s reqBody = (s, r)) \/
     (set_has (nullifiers s) n = false /\
      js_same cr (JStr "0") || js_same cr (JStr (root s)) = true /\
      let s1 := {| root := root s;
                   leaves := map_set (leaves s) c (dec_of_Z (Z.of_nat (length (leaves s))));
                   nullifiers := set_add (nullifiers s) n |} in
      ((exists v, js_BigInt c = Some v /\
         handler now s reqBody =
           ({| root := dec_of_Z (poseidonHash [v; Z.of_nat (length (leaves s1))]);
               leaves := leaves s1; nullifiers := nullifiers s1 |},
            {| status := 200;
               body := RSuccess (dec_of_Z (poseidonHash [v; Z.of_nat (length (leaves s1))]))
                         (if truthy (get_prop reqBody "offchain")
                          then "Offchain proof verified and tree updated"
                          else "ZK proof verified and tree updated")
                         (if truthy (get_prop reqBody "offchain") then "offchain" else "zk") |}))
       \/ (js_BigInt c = None /\ handler now s reqBody = (s1, internal500)))))).
Proof.
  unfold verify_handler.
  destruct (stage_of now reqBody) as [r|c n cr] eqn:Hst.
  - left; exists r; split; reflexivity.
  - right; exists c, n, cr; split; [reflexivity|].
    unfold apply_request.
    destruct (set_has (nullifiers s) n) eqn:Hn.
    { left; split; [left; reflexivity|]. exists (reject400 MSG_NULLIFIER_USED); split; reflexivity. }
    destruct (js_same cr (JStr "0")) eqn:H0; destruct (js_same cr (JStr (root s))) eqn:Hr;
      cbn [negb andb orb].
    4: { left; split; [right; reflexivity|]. exists (reject400 MSG_ROOT_MISMATCH); split; reflexivity. }
    all: right; split; [reflexivity|]; split; [reflexivity|].
    all: unfold updateMerkleTree; cbn [leaves root nullifiers].
    all: destruct (js_BigInt c) as [v|]; [left; exists v; split; reflexivity|right; split; reflexivity].
Qed.


Lemma offchain_proceed_parses (now : Z) (reqBody c n cr : jsval) :
  truthy (get_prop reqBody "offchain") = true ->
  stage_of now reqBody = Proceed c n cr ->
  (exists a, c = JStr a) /\ (exists b, n = JStr b) /\
  (exists v, js_BigInt c = Some v /\ v <> 0) /\ (exists w, js_BigInt n = Some w /\ w <> 0).
Proof.
  intros Hoff Hst; unfold proof_stage in Hst; cbv zeta in Hst.
  rewrite Hoff in Hst.
  destruct (truthy (get_prop reqBody "publicSignals")); cbn [negb] in Hst; [|discriminate].
  destruct (get_prop (get_prop reqBody "offchain") "nullifier") as [| | | |nul| |] eqn:Hn;
    try discriminate Hst.
  destruct (get_prop (get_prop reqBody "offchain") "commitment") as [| | | |com| |] eqn:Hc;
    try discriminate Hst.
  destruct (js_BigInt (get_index (get_prop reqBody "publicSignals") 1)); [|discriminate].
  match type of Hst with
  | (if ?b then _ else _) = _ => destruct b eqn:Hv; [|discriminate]
  end.
  injection Hst as <- <- _.
  unfold verifyOffchainSignature in Hv.
  destruct (match js_ToNumber _ with NNum t => _ | NaN => false end); [discriminate|].
  destruct (js_BigInt (JStr com)) as [v|]; [|discriminate].
  destruct (js_BigInt (JStr nul)) as [w|]; [|discriminate].
  destruct (Z.eqb_spec v 0); [discriminate|]. destruct (Z.eqb_spec w 0); [discriminate|].
  repeat split; eauto.
Qed.

End Handler.
End ServerMore.

Module ServerExtras.
Import Js Server ServerMore.

Section Extras.

Variable poseidonHash : list Z -> Z.
Variable verificationKey_loaded : bool.
Variable groth16_verify : jsval -> jsval -> option bool.

Local Abbreviation stage_of := (proof_stage verificationKey_loaded groth16_verify).
Local Abbreviation handler := (verify_handler poseidonHash verificationKey_loaded groth16_verify).

(** Every 400 answer of [/verify] leaves the tree state as it was. *)
Theorem verify_400_keeps_state (now : Z) (s s' : TreeState) (reqBody : jsval) (r : response) :
  handler now s reqBody = (s', r) -> status r = 400 -> s' = s.
Proof.
  intros Hh H400.
  destruct (handler_cases poseidonHash verificationKey_loaded groth16_verify now s reqBody)
    as [[r0 [_ Heq]] | [c [n [cr [_ [[_ [r0 [_ Heq]]] | [_ [_ [[v [_ Heq]] | [_ Heq]]]]]]]]]];
    rewrite Heq in Hh; injection Hh as <- <-; try reflexivity; discriminate H400.
Qed.

(** [/verify] only grows the state: every nullifier and every leaf key
    stays, and the leaf count grows by at most one per request. *)
Theorem verify_monotone (now : Z) (s s' : TreeState) (reqBody : jsval) (r : response) :
  handler now s reqBody = (s', r) ->
  (forall v, set_has (nullifiers s) v = true -> set_has (nullifiers s') v = true) /\
  (forall k, map_has (leaves s) k = true -> map_has (leaves s') k = true) /\
  (length (leaves s) <= length (leaves s') <= S (length (leaves s)))%nat.
Proof.
  intros Hh.
  destruct (handler_cases poseidonHash verificationKey_loaded groth16_verify now s reqBody)
    as [[r0 [_ Heq]] | [c [n [cr [_ [[_ [r0 [_ Heq]]] | [_ [_ [[v [_ Heq]] | [_ Heq]]]]]]]]]];
    rewrite Heq in Hh; injection Hh as <- <-; cbn [nullifiers leaves].
  all: try (split; [auto|split; [auto|lia]]).
  all: split; [intros x Hx; apply set_add_keeps; exact Hx|].
  all: split; [intros k Hk; apply map_set_keeps; exact Hk|apply map_set_length_bounds].
Qed.

(** [/verify] answers 200 exactly when the proof stage admits the
    request, its nullifier is fresh, its claimed root is ['0'] or the
    current root, and [BigInt] accepts its commitment. *)
Theorem verify_200_iff (now : Z) (s : TreeState) (reqBody : jsval) :
  status (snd (handler now s reqBody)) = 200 <->
  exists c n cr v, stage_of now reqBody = Proceed c n cr /\
    set_has (nullifiers s) n = false /\
    js_same cr (JStr "0") || js_same cr (JStr (root s)) = true /\
    js_BigInt c = Some v.
Proof.
  destruct (handler_cases poseidonHash verificationKey_loaded groth16_verify now s reqBody)
    as [[r0 [Hst Heq]] | [c [n [cr [Hst [[Hbad [r0 [H400 Heq]]] | [Hn [Hr [[v [Hv Heq]] | [Hv Heq]]]]]]]]]];
    rewrite Heq; cbn [snd status].
  - split.
    + intros H200.
      exfalso; unfold proof_stage in Hst; cbv zeta in Hst.
      repeat match type of Hst with
      | context [if ?b then _ else _] => destruct b
      | context [match ?x with _ => _ end] => destruct x
      end; try discriminate Hst; injection Hst as <-; discriminate H200.
    + intros (c & n & cr & v & Hst' & _); congruence.
  - rewrite H400; split; [discriminate|].
    intros (c' & n' & cr' & v & Hst' & Hn & Hr & _).
    rewrite Hst in Hst'; injection Hst' as <- <- <-.
    destruct Hbad as [Hb|Hb]; congruence.
  - split; [intros _; exists c, n, cr, v; tauto|reflexivity].
  - split; [discriminate|].
    intros (c' & n' & cr' & v & Hst' & _ & _ & Hv').
    rewrite Hst in Hst'; injection Hst' as <- <- <-; congruence.
Qed.


(** The 500 after the checks: when [BigInt] throws on a commitment the
    proof stage admitted (fresh nullifier, accepted root), the nullifier
    has been recorded and the commitment stored as a leaf before the
    throw; only the root stays. *)
Theorem verify_500_partial_write (now : Z) (s : TreeState) (reqBody c n cr : jsval) :
  stage_of now reqBody = Proceed c n cr ->
  set_has (nullifiers s) n = false ->
  js_same cr (JStr "0") || js_same cr (JStr (root s)) = true ->
  js_BigInt c = None ->
  handler now s reqBody =
    ({| root := root s;
        leaves := map_set (leaves s) c (dec_of_Z (Z.of_nat (length (leaves s))));
        nullifiers := set_add (nullifiers s) n |}, internal500).
Proof.
  intros Hst Hn Hr Hc.
  destruct (handler_cases poseidonHash verificationKey_loaded groth16_verify now s reqBody)
    as [[r0 [Hst' _]] | [c' [n' [cr' [Hst' [[Hbad _] | [_ [_ [[v [Hv _]] | [_ Heq]]]]]]]]]];
    rewrite Hst in Hst'; try discriminate Hst'; injection Hst' as <- <- <-.
  - destruct Hbad as [Hb|Hb]; congruence.
  - congruence.
  - exact Heq.
Qed.

(** In offchain mode a request that passes the proof stage has a string
    commitment and a string nullifier that [BigInt] reads as non-zero
    numbers, so the partial write on a throwing [BigInt] only happens in
    ZK mode. *)
Theorem offchain_admitted_commitment_parses (now : Z) (reqBody c n cr : jsval) :
  truthy (get_prop reqBody "offchain") = true ->
  stage_of now reqBody = Proceed c n cr ->
  (exists a, c = JStr a) /\ (exists b, n = JStr b) /\
  (exists v, js_BigInt c = Some v /\ v <> 0) /\ (exists w, js_BigInt n = Some w /\ w <> 0).
Proof. apply offchain_proceed_parses. Qed.

(** Offchain mode, with a timestamp that is a JSON primitive (so that
    [currentTime - timestamp] cannot throw), answers 500 exactly when the
    nullifier or the commitment is not a string, or
    [BigInt(publicSignals[1])] throws; the state is then unchanged. *)
Theorem offchain_500_iff_malformed (now : Z) (s : TreeState) (reqBody : jsval) :
  truthy (get_prop reqBody "publicSignals") = true ->
  truthy (get_prop reqBody "offchain") = true ->
  is_primitive (get_prop (get_prop reqBody "offchain") "timestamp") = true ->
  let malformed :=
    forall a b, get_prop (get_prop reqBody "offchain") "nullifier" = JStr a ->
                get_prop (get_prop reqBody "offchain") "commitment" = JStr b ->
                js_BigInt (get_index (get_prop reqBody "publicSignals") 1) = None in
  (status (snd (handler now s reqBody)) = 500 <-> malformed) /\
  (malformed -> handler now s reqBody = (s, internal500)).
Proof.
  intros Hps Hoff _ malformed.
  assert (Hm : malformed -> handler now s reqBody = (s, internal500)).
  { intros Hmal; unfold verify_handler, proof_stage; cbv zeta.
    rewrite Hps, Hoff; cbn [negb].
    destruct (get_prop (get_prop reqBody "offchain") "nullifier") as [| | | |nul| |] eqn:Hn;
      try reflexivity.
    destruct (get_prop (get_prop reqBody "offchain") "commitment") as [| | | |com| |] eqn:Hc;
      try reflexivity.
    rewrite (Hmal nul com eq_refl eq_refl); reflexivity. }
  split; [|exact Hm].
  split; [|intros Hmal; rewrite (Hm Hmal); reflexivity].
  intros H500 a b Hn Hc.
  destruct (js_BigInt (get_index (get_prop reqBody "publicSignals") 1)) as [ds|] eqn:Hds;
    [exfalso|reflexivity].
  destruct (handler_cases poseidonHash verificationKey_loaded groth16_verify now s reqBody)
    as [[r0 [Hst Heq]] | [c [n [cr [Hst [[_ [r0 [H400 Heq]]] | [_ [_ [[v [_ Heq]] | [Hv Heq]]]]]]]]]];
    rewrite Heq in H500; cbn [snd status] in H500.
  - unfold proof_stage in Hst; cbv zeta in Hst.
    rewrite Hps, Hoff, Hn, Hc, Hds in Hst; cbn [negb] in Hst.
    match type of Hst with
    | (if ?b then _ else _) = _ => destruct b
    end; [discriminate|]. injection Hst as <-; discriminate H500.
  - congruence.
  - discriminate H500.
  - destruct (offchain_proceed_parses verificationKey_loaded groth16_verify now reqBody c n cr Hoff Hst) as (_ & _ & [v [Hv' _]] & _).
    congruence.
Qed.

(** The proof mode: with a truthy [offchain] field the answer does not
    depend on the verification key nor on [groth16.verify]; without one,
    a request with no truthy proof, or any request while no key is
    loaded, gets [No valid proof provided] with the state unchanged. *)
Theorem proof_mode_selection (now : Z) (s : TreeState) (reqBody : jsval) :
  (truthy (get_prop reqBody "offchain") = true ->
   forall vk' gv', handler now s reqBody = verify_handler poseidonHash vk' gv' now s reqBody) /\
  (truthy (get_prop reqBody "publicSignals") = true ->
   truthy (get_prop reqBody "offchain") = false ->
   truthy (get_prop reqBody "proof") = false \/ verificationKey_loaded = false ->
   handler now s reqBody = (s, reject400 MSG_NO_PROOF)).
Proof.
  split.
  - intros Hoff vk' gv'; unfold verify_handler, proof_stage; cbv zeta.
    rewrite Hoff; reflexivity.
  - intros Hps Hoff Hp; unfold verify_handler, proof_stage; cbv zeta.
    rewrite Hps, Hoff; cbn [negb].
    destruct Hp as [Hp|Hp]; rewrite Hp; [reflexivity|rewrite andb_false_r; reflexivity].
Qed.

(** After a 200 the nullifier has been added to the set, the commitment
    set in the leaves map (a new key gets index [leaves.size], an existing
    one is re-indexed in place), and the new root, which the response
    carries, is [poseidonHash([BigInt(commitment), leaves.size])]. *)
Theorem verify_200_postcondition (now : Z) (s s' : TreeState) (reqBody : jsval) (r : response) :
  handler now s reqBody = (s', r) -> status r = 200 ->
  exists c n cr v, stage_of now reqBody = Proceed c n cr /\ js_BigInt c = Some v /\
    nullifiers s' = set_add (nullifiers s) n /\
    leaves s' = map_set (leaves s) c (dec_of_Z (Z.of_nat (length (leaves s)))) /\
    length (leaves s') = (length (leaves s) + if map_has (leaves s) c then 0 else 1)%nat /\
    root s' = dec_of_Z (poseidonHash [v; Z.of_nat (length (leaves s'))]) /\
    exists msg, body r = RSuccess (root s') msg
                  (if truthy (get_prop reqBody "offchain") then "offchain" else "zk").
Proof.
  intros Hh H200.
  destruct (handler_cases poseidonHash verificationKey_loaded groth16_verify now s reqBody)
    as [[r0 [Hst Heq]] | [c [n [cr [Hst [[_ [r0 [H400 Heq]]] | [_ [_ [[v [Hv Heq]] | [_ Heq]]]]]]]]]];
    rewrite Heq in Hh; injection Hh as <- <-.
  - exfalso; unfold proof_stage in Hst; cbv zeta in Hst.
    repeat match type of Hst with
    | context [if ?b then _ else _] => destruct b
    | context [match ?x with _ => _ end] => destruct x
    end; try discriminate Hst; injection Hst as <-; discriminate H200.
  - congruence.
  - exists c, n, cr, v; cbn [root leaves nullifiers body].
    split; [exact Hst|]. split; [exact Hv|]. do 2 (split; [reflexivity|]).
    split.
    + destruct (map_has (leaves s) c) eqn:Hk.
      * rewrite ServerClaims.map_set_length by exact Hk; lia.
      * rewrite map_set_length_new by exact Hk; lia.
    + split; [reflexivity|]. eexists; reflexivity.
  - discriminate H200.
Qed.

End Extras.


(** For a timestamp that is a JSON integer or missing,
    [verifyOffchainSignature] accepts exactly when the timestamp is
    missing or within a day of the server time, [BigInt] reads the
    commitment and the nullifier as non-zero numbers, and the signature
    is a string of at least 16 characters. The domain salt and the
    consent value play no part, and the signature is not checked against
    anything. *)
Theorem verifyOffchainSignature_iff (signature : jsval) (domainSalt newConsent : Z)
    (timestamp commitment nullifier : jsval) (now_ms : Z) :
  (timestamp = JUndefined \/ exists t, timestamp = JNum t) ->
  verifyOffchainSignature signature domainSalt newConsent timestamp commitment nullifier now_ms
    = true <->
  (forall t, timestamp = JNum t -> Z.abs (now_ms / 1000 - t) <= 86400) /\
  (exists v, js_BigInt commitment = Some v /\ v <> 0) /\
  (exists w, js_BigInt nullifier = Some w /\ w <> 0) /\
  (exists sg, signature = JStr sg /\ (16 <= String.length sg)%nat).
Proof.
  intros Hts.
  assert (Heqv : (forall t, timestamp = JNum t -> Z.abs (now_ms / 1000 - t) <= 86400) <->
                 (forall t, js_ToNumber timestamp = NNum t -> Z.abs (now_ms / 1000 - t) <= 86400)).
  { destruct Hts as [->|[t ->]]; cbn [js_ToNumber].
    - split; intros _ t' Ht'; discriminate Ht'.
    - split; intros H t' Ht'; apply H; congruence. }
  rewrite Heqv.
  unfold verifyOffchainSignature; cbv zeta.
  assert (Htime : (match js_ToNumber timestamp with
                   | NNum t => Z.abs (now_ms / 1000 - t) >? 86400 | NaN => false end) = false <->
                  (forall t, js_ToNumber timestamp = NNum t -> Z.abs (now_ms / 1000 - t) <= 86400)).
  { destruct (js_ToNumber timestamp) as [t|].
    - rewrite Z.gtb_ltb; split.
      + intros H t' Ht; injection Ht as <-; apply Z.ltb_ge in H; lia.
      + intros H; apply Z.ltb_ge; specialize (H t eq_refl); lia.
    - split; [intros _ t Ht; discriminate Ht|reflexivity]. }
  destruct (match js_ToNumber timestamp with
            | NNum t => Z.abs (now_ms / 1000 - t) >? 86400 | NaN => false end).
  { split; [discriminate|]. intros [H _]. apply Htime in H; discriminate H. }
  destruct (js_BigInt commitment) as [v|].
  2: { split; [discriminate|]. intros (_ & [v [Hv _]] & _); discriminate Hv. }
  destruct (js_BigInt nullifier) as [w|].
  2: { split; [discriminate|]. intros (_ & _ & [w [Hw _]] & _); discriminate Hw. }
  destruct (Z.eqb_spec v 0) as [Hv0|Hv0]; cbn [orb].
  { split; [discriminate|]. intros (_ & [v' [Hv Hne]] & _). injection Hv as <-; contradiction. }
  destruct (Z.eqb_spec w 0) as [Hw0|Hw0].
  { split; [discriminate|]. intros (_ & _ & [w' [Hw Hne]] & _). injection Hw as <-; contradiction. }
  destruct signature as [| | | |sg| |]; cbn [truthy negb orb];
    try (rewrite ?orb_true_r; split; [discriminate|intros (_ & _ & _ & [sg' [Hsg _]]); discriminate Hsg]).
  destruct (String.eqb sg "") eqn:He; cbn [negb orb].
  { split; [discriminate|]. intros (_ & _ & _ & [sg' [Hsg Hlen]]).
    injection Hsg as Hsg; subst sg'. apply String.eqb_eq in He; subst sg; simpl in Hlen; lia. }
  destruct (Nat.ltb (String.length sg) 16) eqn:Hl.
  - split; [discriminate|]. intros (_ & _ & _ & [sg' [Hsg Hlen]]).
    injection Hsg as Hsg; subst sg'. apply Nat.ltb_lt in Hl; lia.
  - apply Nat.ltb_ge in Hl. split; [intros _|reflexivity].
    split; [apply Htime; reflexivity|].
    split; [exists v; split; [reflexivity|exact Hv0]|].
    split; [exists w; split; [reflexivity|exact Hw0]|].
    exists sg; split; [reflexivity|exact Hl].
Qed.

End ServerExtras.

Module WorkerFacts.
Import Js Server Worker JsFacts.

Lemma join_comma_two (a b : Z) :
  list_ascii_of_string (join_comma [a; b]) =
  list_ascii_of_string (dec_of_Z a) ++ ","%char :: list_ascii_of_string (dec_of_Z b).
Proof.
  cbn [join_comma]. rewrite !list_ascii_of_string_app. reflexivity.
Qed.

Lemma firstn_app_long {A : Type} (k : nat) (xs ys : list A) :
  (k <= length xs)%nat -> firstn k (xs ++ ys) = firstn k xs.
Proof.
  intros H; rewrite firstn_app.
  replace (k - length xs)%nat with 0%nat by lia. rewrite app_nil_r; reflexivity.
Qed.

Lemma fold_bytes_bound (cs : list ascii) : forall acc : Z, 0 <= acc ->
  0 <= fold_left (fun acc c => acc * 256 + Z.of_nat (nat_of_ascii c)) cs acc <
       (acc + 1) * 256 ^ Z.of_nat (length cs).
Proof.
  induction cs as [|c cs IH]; intros acc Hacc; cbn [fold_left List.length].
  - simpl; lia.
  - pose proof (nat_ascii_bounded c) as Hc.
    specialize (IH (acc * 256 + Z.of_nat (nat_of_ascii c)) ltac:(lia)).
    rewrite Nat2Z.inj_succ, Z.pow_succ_r by lia.
    split; [lia|].
    eapply Z.lt_le_trans; [apply IH|].
    pose proof (Z.pow_pos_nonneg 256 (Z.of_nat (length cs)) ltac:(lia) ltac:(lia)).
    nia.
Qed.

Lemma prefix8_range (xs : list Z) : 0 <= poseidonHash_prefix8 xs < 2 ^ 64.
Proof.
  unfold poseidonHash_prefix8.
  pose proof (fold_bytes_bound (firstn 8 (list_ascii_of_string (join_comma xs))) 0 ltac:(lia)).
  pose proof (firstn_le_length 8 (list_ascii_of_string (join_comma xs))) as Hl.
  assert (256 ^ Z.of_nat (length (firstn 8 (list_ascii_of_string (join_comma xs)))) <= 2 ^ 64).
  { change (2 ^ 64) with (256 ^ 8). apply Z.pow_le_mono_r; lia. }
  lia.
Qed.

Lemma prefix8_first_input (a b : Z) :
  10 ^ 7 <= a ->
  poseidonHash_prefix8 [a; b] =
  fold_left (fun acc c => acc * 256 + Z.of_nat (nat_of_ascii c))
            (firstn 8 (list_ascii_of_string (dec_of_Z a))) 0.
Proof.
  intros Ha; unfold poseidonHash_prefix8; rewrite join_comma_two.
  rewrite firstn_app_long; [reflexivity|].
  apply (dec_of_Z_length a 7); exact Ha.
Qed.

End WorkerFacts.

Module WorkerExtras.
Import Js Server Worker WorkerHttp WorkerFacts.

(** The worker's root after inserting a commitment is the decimal string
    of a number below [2^64], and it is determined by the first eight
    decimal digits of the commitment alone (for commitments of at least
    eight digits): neither the rest of the commitment nor the leaf count
    nor the earlier state enters it. *)
Theorem worker_root_first8_digits (s1 s2 : TreeState) (c1 c2 : jsval) (v1 v2 : Z) :
  js_BigInt c1 = Some v1 -> js_BigInt c2 = Some v2 ->
  10 ^ 7 <= v1 -> 10 ^ 7 <= v2 ->
  firstn 8 (list_ascii_of_string (dec_of_Z v1)) = firstn 8 (list_ascii_of_string (dec_of_Z v2)) ->
  root (fst (updateMerkleTree poseidonHash_prefix8 s1 c1)) =
  root (fst (updateMerkleTree poseidonHash_prefix8 s2 c2)) /\
  exists h, 0 <= h < 2 ^ 64 /\ root (fst (updateMerkleTree poseidonHash_prefix8 s1 c1)) = dec_of_Z h.
Proof.
  intros H1 H2 Hv1 Hv2 Hpre.
  unfold updateMerkleTree; rewrite H1, H2; cbn [fst root].
  rewrite !prefix8_first_input by assumption. rewrite Hpre.
  split; [reflexivity|].
  eexists; split; [|reflexivity].
  rewrite <- Hpre, <- (prefix8_first_input v1 0) by assumption.
  apply prefix8_range.
Qed.

Section Extras.

Variable poseidonHash : list Z -> Z.
Variable verificationKey_available : bool.
Variable groth16_verify : jsval -> jsval -> option bool.

Local Abbreviation vau := (verifyAndUpdate poseidonHash verificationKey_available groth16_verify).

Lemma verifyAndUpdate_shape (s s' : TreeState) (proof ps : jsval) (ok : bool) (r : string) :
  vau s proof ps = (s', (ok, r)) ->
  r = root s' /\
  (ok = true <->
     verificationKey_available = true /\ groth16_verify ps proof = Some true /\
     set_has (nullifiers s) (get_index ps 3) = false /\
     js_same (get_index ps 4) (JStr "0") || js_same (get_index ps 4) (JStr (root s)) = true /\
     js_BigInt (get_index ps 2) <> None) /\
  (ok = false -> s' = s \/ js_BigInt (get_index ps 2) = None).
Proof.
  unfold verifyAndUpdate.
  destruct verificationKey_available; cbn [negb].
  2: { intros Heq; injection Heq as <- <- <-.
       split; [reflexivity|]; split; [split; [discriminate|intros [H _]; discriminate H]|auto]. }
  destruct (groth16_verify ps proof) as [[|]|].
  2,3: intros Heq; injection Heq as <- <- <-;
       split; [reflexivity|]; split; [split; [discriminate|intros (_ & H & _); discriminate H]|auto].
  destruct (set_has (nullifiers s) (get_index ps 3)) eqn:Hn.
  { intros Heq; injection Heq as <- <- <-.
    split; [reflexivity|]; split; [split; [discriminate|intros (_ & _ & H & _); discriminate H]|auto]. }
  destruct (js_same (get_index ps 4) (JStr "0")); destruct (js_same (get_index ps 4) (JStr (root s)));
    cbn [negb andb orb].
  4: { intros Heq; injection Heq as <- <- <-.
       split; [reflexivity|]; split; [split; [discriminate|intros (_ & _ & _ & H & _); discriminate H]|auto]. }
  all: unfold updateMerkleTree; cbn [leaves root nullifiers].
  all: destruct (js_BigInt (get_index ps 2)) as [v|] eqn:Hc; intros Heq; injection Heq as <- <- <-.
  all: cbn [root]; split; [reflexivity|].
  all: try (split; [split; [intros _; repeat split; congruence|reflexivity]|discriminate]).
  all: split; [split; [discriminate|intros (_ & _ & _ & _ & H); contradiction]|auto].
Qed.

(** [verifyAndUpdate] always returns the root of the state it leaves; it
    reports success exactly when the key is available, [groth16.verify]
    accepts, the nullifier ([publicSignals[3]]) is fresh, the claimed root
    ([publicSignals[4]]) is ['0'] or the current root, and [BigInt]
    accepts the commitment ([publicSignals[2]]); a failure leaves the
    state unchanged unless that last [BigInt] threw. *)
Theorem verifyAndUpdate_outcome (s s' : TreeState) (proof ps : jsval) (ok : bool) (r : string) :
  vau s proof ps = (s', (ok, r)) ->
  r = root s' /\
  (ok = true <->
     verificationKey_available = true /\ groth16_verify ps proof = Some true /\
     set_has (nullifiers s) (get_index ps 3) = false /\
     js_same (get_index ps 4) (JStr "0") || js_same (get_index ps 4) (JStr (root s)) = true /\
     js_BigInt (get_index ps 2) <> None) /\
  (ok = false -> s' = s \/ js_BigInt (get_index ps 2) = None).
Proof. apply verifyAndUpdate_shape. Qed.

(** The worker's [fetch]: a 200 carries the root of the new state and
    only answers a POST; any other answer leaves the state unchanged
    unless [BigInt(publicSignals[2])] threw inside [verifyAndUpdate]; and
    a POST body without a truthy [proof] (such as the client's offchain
    body) is refused with 400 and no state change. *)
Theorem worker_fetch_outcome (s s' : TreeState) (method : string) (body : option jsval)
    (resp : worker_response) :
  worker_fetch poseidonHash verificationKey_available groth16_verify s method body = (s', resp) ->
  (wstatus resp = 200 -> wbody resp = WVerified (root s') /\ method = "POST"%string) /\
  (wstatus resp <> 200 ->
     s' = s \/ exists b, body = Some b /\
                         js_BigInt (get_index (get_prop b "publicSignals") 2) = None) /\
  (forall b, body = Some b -> b <> JNull -> method = "POST"%string ->
     truthy (get_prop b "proof") = false ->
     resp = {| wstatus := 400; wbody := WMissing |} /\ s' = s).
Proof.
  unfold worker_fetch.
  destruct (String.eqb_spec method "OPTIONS") as [->|Hopt].
  { intros Heq; injection Heq as <- <-; cbn [wstatus wbody].
    split; [discriminate|]. split; [auto|]. intros b _ _ Hm; discriminate Hm. }
  destruct (String.eqb_spec method "POST") as [->|Hpost]; cbn [negb].
  2: { intros Heq; injection Heq as <- <-; cbn [wstatus wbody].
       split; [discriminate|]. split; [auto|]. intros b _ _ Hm; contradiction. }
  destruct body as [b|].
  2: { intros Heq; injection Heq as <- <-; cbn [wstatus wbody].
       split; [discriminate|]. split; [auto|]. intros b' Hb; discriminate Hb. }
  assert (Hb : b = JNull \/ b <> JNull) by (destruct b; [right|left|right..]; congruence).
  destruct Hb as [Hb|Hb].
  { subst b; intros Heq; injection Heq as <- <-; cbn [wstatus wbody].
    split; [discriminate|]. split; [auto|]. intros b' Hb' Hn; injection Hb' as <-; contradiction. }
  replace (match b with JNull => _ | _ => _ end) with
    (if negb (truthy (get_prop b "proof")) || negb (truthy (get_prop b "publicSignals")) then
       (s, {| wstatus := 400; wbody := WMissing |})
     else
       match vau s (get_prop b "proof") (get_prop b "publicSignals") with
       | (s', (true, r)) => (s', {| wstatus := 200; wbody := WVerified r |})
       | (s', (false, _)) => (s', {| wstatus := 400; wbody := WFailed |})
       end) by (destruct b; [reflexivity|contradiction|reflexivity..]).
  destruct (truthy (get_prop b "proof")) eqn:Hp; cbn [negb orb].
  2: { intros Heq; injection Heq as <- <-; cbn [wstatus wbody].
       split; [discriminate|]. split; [auto|]. intros b' Hb' _ _ _; split; reflexivity. }
  destruct (truthy (get_prop b "publicSignals")); cbn [negb orb].
  2: { intros Heq; injection Heq as <- <-; cbn [wstatus wbody].
       split; [discriminate|]. split; [auto|]. intros b' Hb' _ _ Hp'.
       injection Hb' as <-; congruence. }
  destruct (vau s (get_prop b "proof") (get_prop b "publicSignals")) as [s1 [[|] r]] eqn:Hv;
    intros Heq; injection Heq as <- <-; cbn [wstatus wbody].
  - destruct (verifyAndUpdate_shape s s1 _ _ true r Hv) as [-> _].
    split; [split; reflexivity|]. split; [intros H; contradiction|].
    intros b' Hb' _ _ Hp'; injection Hb' as <-; congruence.
  - destruct (verifyAndUpdate_shape s s1 _ _ false r Hv) as (_ & _ & Hf).
    split; [discriminate|]. split.
    + intros _. destruct (Hf eq_refl) as [Hs|Hc]; [left; exact Hs|right; exists b; split; [reflexivity|exact Hc]].
    + intros b' Hb' _ _ Hp'; injection Hb' as <-; congruence.
Qed.

End Extras.
End WorkerExtras.

Module ClientFacts.
Import Js Server Client JsFacts.

Lemma bytesToBigInt_cons (b : Z) (bs : list Z) :
  bytesToBigInt (b :: bs) = b + 256 * bytesToBigInt bs.
Proof.
  unfold bytesToBigInt; cbn [rev]; rewrite fold_left_app; cbn [fold_left]; ring.
Qed.

Lemma bytesToBigInt_bounds (bs : list Z) :
  Forall (fun b => 0 <= b < 256) bs -> 0 <= bytesToBigInt bs < 256 ^ Z.of_nat (length bs).
Proof.
  induction 1 as [|b bs Hb Hall IH]; [simpl; unfold bytesToBigInt; simpl; lia|].
  rewrite bytesToBigInt_cons; cbn [List.length]; rewrite Nat2Z.inj_succ, Z.pow_succ_r by lia.
  lia.
Qed.

Lemma byte_hex_length (b : nat) : length (byte_hex b) = 2%nat.
Proof. reflexivity. Qed.

Lemma flat_map_byte_hex_length (l : list nat) : length (flat_map byte_hex l) = (2 * length l)%nat.
Proof.
  induction l as [|b l IH]; [reflexivity|].
  cbn [flat_map]; rewrite length_app, IH; cbn [List.length byte_hex]; lia.
Qed.

Lemma firstn_flat_map_byte_hex (k : nat) (l : list nat) :
  firstn (2 * k) (flat_map byte_hex l) = flat_map byte_hex (firstn k l).
Proof.
  revert l; induction k as [|k IH]; intros l; [reflexivity|].
  destruct l as [|b l]; [reflexivity|].
  replace (2 * S k)%nat with (S (S (2 * k))) by lia.
  cbn [flat_map firstn byte_hex app]. rewrite IH; reflexivity.
Qed.

(** [createFallbackPoseidon]'s function reads only the first 16
    characters of the joined inputs when there are at least 16. *)
Lemma fallback_first16 (xs ys : list Z) :
  (16 <= length (list_ascii_of_string (join_comma xs)))%nat ->
  (16 <= length (list_ascii_of_string (join_comma ys)))%nat ->
  firstn 16 (list_ascii_of_string (join_comma xs)) =
  firstn 16 (list_ascii_of_string (join_comma ys)) ->
  fallbackPoseidon xs = fallbackPoseidon ys.
Proof.
  intros Hx Hy Heq; unfold fallbackPoseidon; cbv zeta.
  assert (Hhash : forall zs, (16 <= length (list_ascii_of_string (join_comma zs)))%nat ->
    firstn 32 (flat_map byte_hex (map nat_of_ascii (list_ascii_of_string (join_comma zs))) ++
               repeat "0"%char (32 - length (flat_map byte_hex
                  (map nat_of_ascii (list_ascii_of_string (join_comma zs))))))
    = flat_map byte_hex (map nat_of_ascii (firstn 16 (list_ascii_of_string (join_comma zs))))).
  { intros zs Hz.
    rewrite flat_map_byte_hex_length, length_map.
    replace (32 - 2 * length (list_ascii_of_string (join_comma zs)))%nat with 0%nat by lia.
    rewrite app_nil_r, <- firstn_map.
    exact (firstn_flat_map_byte_hex 16 _). }
  rewrite (Hhash xs Hx), (Hhash ys Hy), Heq; reflexivity.
Qed.

End ClientFacts.

Module ClientExtras.
Import Js Server Client JsFacts ClientFacts.

(** [bytesToBigInt] reads a byte array little-endian: the value of an
    array of [n] bytes is in [0, 256^n), and two arrays of the same length
    with the same value are equal. *)
Theorem bytesToBigInt_range_injective (xs : list Z) :
  Forall (fun b => 0 <= b < 256) xs ->
  0 <= bytesToBigInt xs < 256 ^ Z.of_nat (length xs) /\
  forall ys, Forall (fun b => 0 <= b < 256) ys -> length ys = length xs ->
             bytesToBigInt ys = bytesToBigInt xs -> ys = xs.
Proof.
  intros Hx; split; [apply bytesToBigInt_bounds; exact Hx|].
  induction Hx as [|x xs Hxb Hxs IH]; intros ys Hy Hlen Hv.
  - destruct ys; [reflexivity|discriminate].
  - destruct ys as [|y ys]; [discriminate|].
    inversion Hy as [|? ? Hyb Hys]; subst.
    rewrite !bytesToBigInt_cons in Hv.
    pose proof (bytesToBigInt_bounds xs Hxs). pose proof (bytesToBigInt_bounds ys Hys).
    assert (y = x) as -> by lia.
    f_equal. apply IH; [exact Hys|injection Hlen; auto|lia].
Qed.

(** The fallback hash reads only the first 16 characters of the joined
    decimal inputs: inputs whose joined strings have at least 16
    characters and agree on the first 16 hash to the same value. *)
Theorem fallbackPoseidon_first16 (xs ys : list Z) :
  (16 <= length (list_ascii_of_string (join_comma xs)))%nat ->
  (16 <= length (list_ascii_of_string (join_comma ys)))%nat ->
  firstn 16 (list_ascii_of_string (join_comma xs)) =
  firstn 16 (list_ascii_of_string (join_comma ys)) ->
  fallbackPoseidon xs = fallbackPoseidon ys.
Proof. apply fallback_first16. Qed.

(** With the fallback hash, the nullifier [poseidonHash([identitySecret,
    domainSalt])] of a secret of at least 16 decimal digits does not
    depend on the domain salt. *)
Theorem fallback_nullifier_ignores_salt (secret salt1 salt2 : Z) :
  10 ^ 15 <= secret ->
  fallbackPoseidon [secret; salt1] = fallbackPoseidon [secret; salt2].
Proof.
  intros Hs.
  assert (Hlen := dec_of_Z_length secret 15 Hs).
  assert (Hj : forall salt, list_ascii_of_string (join_comma [secret; salt]) =
                 list_ascii_of_string (dec_of_Z secret) ++
                 ","%char :: list_ascii_of_string (dec_of_Z salt)).
  { intros salt; cbn [join_comma]; rewrite !list_ascii_of_string_app; reflexivity. }
  apply fallback_first16; rewrite ?Hj, ?length_app; try lia.
  rewrite !firstn_app; replace (16 - length (list_ascii_of_string (dec_of_Z secret)))%nat with 0%nat
    by lia.
  reflexivity.
Qed.

Section Admission.
Local Open Scope string_scope.
Local Open Scope Z_scope.

Variable poseidonHash : list Z -> Z.
Variable verificationKey_loaded : bool.
Variable groth16_verify : jsval -> jsval -> option bool.

Lemma dec_digits_nonempty (f : nat) : forall (n : Z) (acc : string), dec_digits f n acc <> "".
Proof.
  induction f as [|f IH]; intros n acc; cbn [dec_digits]; [discriminate|].
  destruct (n <? 10); [discriminate|apply IH].
Qed.

Lemma dec_of_Z_nonempty (z : Z) : dec_of_Z z <> "".
Proof. unfold dec_of_Z; destruct (z <? 0); [discriminate|apply dec_digits_nonempty]. Qed.

(** The offchain body the client builds in [generateProof] (decimal
    strings for the signals, the nullifier and the commitment, the
    signature string and the numeric timestamp) is admitted by [/verify]
    with 200 when its signature has at least 16 characters, its timestamp
    is within a day of the server time, the commitment and nullifier are
    positive, the domain salt is not negative, the root it carries is 0 or
    the server's current root, and the nullifier is fresh: the nullifier
    is appended to the set and the new root is
    [poseidonHash([commitment, leaves.size])]. *)
Theorem client_offchain_request_admitted (now_ms currentTime domainSalt commitment nullifier
    rt timestamp : Z) (signature : string) (s : TreeState) :
  0 <= domainSalt -> 0 < commitment -> 0 < nullifier ->
  rt = 0 \/ dec_of_Z rt = root s ->
  (16 <= String.length signature)%nat ->
  Z.abs (now_ms / 1000 - timestamp) <= 86400 ->
  set_has (nullifiers s) (JStr (dec_of_Z nullifier)) = false ->
  let res := verify_handler poseidonHash verificationKey_loaded groth16_verify now_ms s
               (client_offchain_request currentTime domainSalt commitment nullifier rt
                  signature timestamp) in
  status (snd res) = 200 /\
  nullifiers (fst res) = (nullifiers s ++ [JStr (dec_of_Z nullifier)])%list /\
  root (fst res) = dec_of_Z (poseidonHash [commitment; Z.of_nat (length (leaves (fst res)))]).
Proof.
  intros Hsalt Hcom Hnul Hrt Hsig Htime Hfresh res.
  set (req := client_offchain_request currentTime domainSalt commitment nullifier rt
                signature timestamp) in res.
  assert (Hstage : proof_stage verificationKey_loaded groth16_verify now_ms req =
            Proceed (JStr (dec_of_Z commitment)) (JStr (dec_of_Z nullifier))
                    (JStr (dec_of_Z rt))).
  { unfold proof_stage; cbv zeta.
    change (get_prop req "publicSignals") with
      (JArr [JStr (dec_of_Z currentTime); JStr (dec_of_Z domainSalt);
             JStr (dec_of_Z commitment); JStr (dec_of_Z nullifier); JStr (dec_of_Z rt)]).
    change (get_prop req "offchain") with
      (JObj [("nullifier", JStr (dec_of_Z nullifier)); ("commitment", JStr (dec_of_Z commitment));
             ("signature", JStr signature); ("timestamp", JNum timestamp)]).
    cbn [truthy negb get_index nth].
    change (get_prop (JObj _) "commitment") with (JStr (dec_of_Z commitment)).
    change (get_prop (JObj _) "nullifier") with (JStr (dec_of_Z nullifier)).
    change (get_prop (JObj _) "signature") with (JStr signature).
    change (get_prop (JObj _) "timestamp") with (JNum timestamp).
    rewrite js_BigInt_dec by exact Hsalt.
    unfold verifyOffchainSignature; cbv zeta; cbn [js_ToNumber].
    replace (Z.abs (now_ms / 1000 - timestamp) >? 86400) with false
      by (symmetry; rewrite Z.gtb_ltb; apply Z.ltb_ge; lia).
    rewrite !js_BigInt_dec by lia.
    replace (commitment =? 0) with false by (symmetry; apply Z.eqb_neq; lia).
    replace (nullifier =? 0) with false by (symmetry; apply Z.eqb_neq; lia).
    replace (Nat.ltb (String.length signature) 16) with false
      by (symmetry; apply Nat.ltb_ge; exact Hsig).
    replace (truthy (JStr signature)) with true.
    2: { cbn [truthy]; destruct signature; [simpl in Hsig; lia|reflexivity]. }
    cbn [negb orb].
    rewrite (proj2 (String.eqb_neq _ _) (dec_of_Z_nonempty rt)); reflexivity. }
  unfold res, verify_handler; rewrite Hstage.
  replace (truthy (get_prop req "offchain")) with true by reflexivity.
  unfold apply_request; rewrite Hfresh; cbn [negb].
  assert (Hok : js_same (JStr (dec_of_Z rt)) (JStr "0") ||
                js_same (JStr (dec_of_Z rt)) (JStr (root s)) = true).
  { destruct Hrt as [->|Hr]; [reflexivity|].
    rewrite Hr; cbn [js_same]; rewrite String.eqb_refl; apply orb_true_r. }
  destruct (js_same (JStr (dec_of_Z rt)) (JStr "0"));
    destruct (js_same (JStr (dec_of_Z rt)) (JStr (root s)));
    cbn [negb andb orb] in *; try discriminate Hok.
  all: unfold updateMerkleTree; cbv zeta; cbn [leaves root nullifiers].
  all: rewrite js_BigInt_dec by lia; cbn [fst snd status root nullifiers leaves].
  all: unfold set_add; rewrite Hfresh.
  all: split; [reflexivity|split; reflexivity].
Qed.

End Admission.

End ClientExtras.

Module ExtraInstances.
Import Circuit Js Server Worker WorkerHttp Client Samples MoreSamples.
Import CircuitExtras ServerExtras WorkerExtras ClientExtras.
Local Open Scope string_scope.
Local Open Scope Z_scope.

Local Abbreviation H8 := Worker.poseidonHash_prefix8.

(** An 8-bit old consent of 255 admits a new consent of 510. *)
Lemma consentCheck_sat_iff_witness :
  (0 <= 255 < 256 /\ 0 <= 510 < p) /\ exists bits, GreaterEqThan 8 510 255 bits 1.
Proof.
  assert (H1 : 0 <= 255 < 256) by lia.
  assert (H2 : 0 <= 510 < p) by (unfold p; lia).
  split; [split; assumption|].
  apply (proj2 (consentCheck_sat_iff 255 510 H1 H2)); lia.
Defined.

(** A timestamp about 31 years after the current time passes the time
    check. *)
Lemma timeCheck_sat_iff_witness :
  (0 <= 1700000000 < 2 ^ 32 /\ 0 <= 2700000000 < 2 ^ 32) /\
  exists bits, LessEqThan 32 (fsub 1700000000 2700000000) TWO_YEARS bits 1.
Proof.
  assert (H1 : 0 <= 1700000000 < 2 ^ 32) by lia.
  assert (H2 : 0 <= 2700000000 < 2 ^ 32) by lia.
  split; [split; assumption|].
  apply (proj2 (timeCheck_sat_iff 1700000000 2700000000 H1 H2)); unfold TWO_YEARS; lia.
Defined.

(** A replayed ZK request gets 400 and the state stays. *)
Lemma verify_400_keeps_state_witness :
  fst (verify_handler H8 true accept_all t0_ms used_state (zk_request (JStr "77") (JStr "0")))
    = used_state.
Proof.
  apply (verify_400_keeps_state H8 true accept_all t0_ms used_state _
           (zk_request (JStr "77") (JStr "0"))
           (snd (verify_handler H8 true accept_all t0_ms used_state
                   (zk_request (JStr "77") (JStr "0"))))).
  - vm_compute; reflexivity.
  - vm_compute; reflexivity.
Defined.

(** An offchain request against a moved root: the old leaf and the
    nullifier set survive, and one leaf is added. *)
Lemma verify_monotone_witness :
  let res := verify_handler H8 false throwing_verify t0_ms moved_state
               (offchain_request (JNum 1700000000) (JStr "999")) in
  (forall v, set_has (nullifiers moved_state) v = true -> set_has (nullifiers (fst res)) v = true) /\
  (forall k, map_has (leaves moved_state) k = true -> map_has (leaves (fst res)) k = true) /\
  (length (leaves moved_state) <= length (leaves (fst res)) <= S (length (leaves moved_state)))%nat.
Proof.
  intros res.
  apply (verify_monotone H8 false throwing_verify t0_ms moved_state (fst res)
           (offchain_request (JNum 1700000000) (JStr "999")) (snd res)).
  vm_compute; reflexivity.
Defined.

(** The same request, admitted with 200. *)
Lemma verify_200_postcondition_witness :
  let res := verify_handler H8 false throwing_verify t0_ms moved_state
               (offchain_request (JNum 1700000000) (JStr "999")) in
  exists c n cr v,
    proof_stage false throwing_verify t0_ms (offchain_request (JNum 1700000000) (JStr "999"))
      = Proceed c n cr /\ js_BigInt c = Some v /\
    nullifiers (fst res) = set_add (nullifiers moved_state) n /\
    leaves (fst res) = map_set (leaves moved_state) c
                         (dec_of_Z (Z.of_nat (length (leaves moved_state)))) /\
    length (leaves (fst res)) =
      (length (leaves moved_state) + if map_has (leaves moved_state) c then 0 else 1)%nat /\
    root (fst res) = dec_of_Z (H8 [v; Z.of_nat (length (leaves (fst res)))]) /\
    exists msg, body (snd res) = RSuccess (root (fst res)) msg
      (if truthy (get_prop (offchain_request (JNum 1700000000) (JStr "999")) "offchain")
       then "offchain" else "zk").
Proof.
  intros res.
  apply (verify_200_postcondition H8 false throwing_verify t0_ms moved_state (fst res)
           (offchain_request (JNum 1700000000) (JStr "999")) (snd res)).
  - vm_compute; reflexivity.
  - vm_compute; reflexivity.
Defined.

(** A ZK request whose commitment signal is ["abc"]: nullifier recorded
    and leaf stored, then 500. *)
Lemma verify_500_partial_write_witness :
  verify_handler H8 true accept_all t0_ms initial_state
    (zk_request_with (JStr "abc") (JStr "88") (JStr "0")) =
  ({| root := "0"; leaves := [(JStr "abc", "0")]; nullifiers := [JStr "88"] |}, internal500).
Proof.
  rewrite (verify_500_partial_write H8 true accept_all t0_ms initial_state
             (zk_request_with (JStr "abc") (JStr "88") (JStr "0"))
             (JStr "abc") (JStr "88") (JStr "0")) by (vm_compute; reflexivity).
  vm_compute; reflexivity.
Defined.

(** The client's offchain body: commitment ["123"] and nullifier ["77"]. *)
Lemma offchain_admitted_commitment_parses_witness :
  (exists a, JStr "123" = JStr a) /\ (exists b, JStr "77" = JStr b) /\
  (exists v, js_BigInt (JStr "123") = Some v /\ v <> 0) /\
  (exists w, js_BigInt (JStr "77") = Some w /\ w <> 0).
Proof.
  apply (offchain_admitted_commitment_parses false throwing_verify t0_ms
           (offchain_request (JNum 1700000000) (JStr "0")) (JStr "123") (JStr "77") (JStr "0"));
    vm_compute; reflexivity.
Defined.

(** A numeric nullifier: 500, state unchanged. *)
Lemma offchain_500_iff_malformed_witness :
  verify_handler H8 false throwing_verify t0_ms initial_state numeric_nullifier_request =
  (initial_state, internal500).
Proof.
  apply (proj2 (offchain_500_iff_malformed H8 false throwing_verify t0_ms initial_state
                  numeric_nullifier_request eq_refl eq_refl eq_refl)).
  intros a b Ha _; vm_compute in Ha; discriminate Ha.
Defined.

(** The client's signature, commitment and nullifier, with a timestamp
    equal to the server time. *)
Lemma verifyOffchainSignature_iff_witness :
  verifyOffchainSignature (JStr "0123456789abcdef") 5 255 (JNum 1700000000)
    (JStr "123") (JStr "77") t0_ms = true.
Proof.
  apply (proj2 (verifyOffchainSignature_iff (JStr "0123456789abcdef") 5 255 (JNum 1700000000)
                  (JStr "123") (JStr "77") t0_ms (or_intror (ex_intro _ 1700000000 eq_refl)))).
  refine (conj _ (conj _ (conj _ _))).
  - intros t Ht; injection Ht as <-; vm_compute; discriminate.
  - exists 123; split; [vm_compute; reflexivity|discriminate].
  - exists 77; split; [vm_compute; reflexivity|discriminate].
  - exists "0123456789abcdef"; split; [reflexivity|vm_compute; lia].
Defined.

(** A ZK request while no key is loaded. *)
Lemma proof_mode_selection_witness :
  verify_handler H8 false accept_all t0_ms initial_state (zk_request (JStr "88") (JStr "0")) =
  (initial_state, reject400 MSG_NO_PROOF).
Proof.
  apply (proj2 (proof_mode_selection H8 false accept_all t0_ms initial_state
                  (zk_request (JStr "88") (JStr "0"))));
    [reflexivity|reflexivity|right; reflexivity].
Defined.

(** Two nine-digit commitments sharing their first eight digits get the
    same worker root, from different states. *)
Lemma worker_root_first8_digits_witness :
  root (fst (updateMerkleTree H8 initial_state (JStr "123456789"))) =
  root (fst (updateMerkleTree H8 moved_state (JStr "123456780"))) /\
  exists h, 0 <= h < 2 ^ 64 /\
    root (fst (updateMerkleTree H8 initial_state (JStr "123456789"))) = dec_of_Z h.
Proof.
  apply (worker_root_first8_digits initial_state moved_state (JStr "123456789") (JStr "123456780")
           123456789 123456780); try (vm_compute; reflexivity); lia.
Defined.

(** A verified proof whose commitment signal [BigInt] rejects. *)
Lemma verifyAndUpdate_outcome_witness :
  let ps := JArr [JStr "1700000000"; JStr "5"; JStr "abc"; JStr "88"; JStr "0"] in
  let res := verifyAndUpdate H8 true accept_all initial_state (JObj []) ps in
  snd (snd res) = root (fst res) /\
  (fst (snd res) = true <->
     true = true /\ accept_all ps (JObj []) = Some true /\
     set_has (nullifiers initial_state) (get_index ps 3) = false /\
     js_same (get_index ps 4) (JStr "0") || js_same (get_index ps 4) (JStr (root initial_state))
       = true /\
     js_BigInt (get_index ps 2) <> None) /\
  (fst (snd res) = false -> fst res = initial_state \/ js_BigInt (get_index ps 2) = None).
Proof.
  intros ps res.
  apply (verifyAndUpdate_outcome H8 true accept_all initial_state (fst res) (JObj []) ps
           (fst (snd res)) (snd (snd res))).
  vm_compute; reflexivity.
Defined.

(** The client's offchain body posted to the worker: 400, no change. *)
Lemma worker_fetch_outcome_witness :
  worker_fetch H8 true accept_all initial_state "POST"
    (Some (offchain_request (JNum 1700000000) (JStr "0"))) =
  (initial_state, {| wstatus := 400; wbody := WMissing |}).
Proof.
  set (R := worker_fetch H8 true accept_all initial_state "POST"
              (Some (offchain_request (JNum 1700000000) (JStr "0")))).
  destruct (worker_fetch_outcome H8 true accept_all initial_state (fst R) "POST"
              (Some (offchain_request (JNum 1700000000) (JStr "0"))) (snd R)
              ltac:(vm_compute; reflexivity)) as (_ & _ & Hm).
  destruct (Hm (offchain_request (JNum 1700000000) (JStr "0")) eq_refl
              ltac:(discriminate) eq_refl ltac:(vm_compute; reflexivity)) as [Hr Hs].
  rewrite (surjective_pairing R), Hr, Hs; reflexivity.
Defined.

(** The bytes [[1; 2]]. *)
Lemma bytesToBigInt_range_injective_witness :
  0 <= bytesToBigInt [1; 2] < 256 ^ Z.of_nat (length [1; 2]) /\
  forall ys, Forall (fun b => 0 <= b < 256) ys -> length ys = length [1; 2] ->
             bytesToBigInt ys = bytesToBigInt [1; 2] -> ys = [1; 2].
Proof.
  apply bytesToBigInt_range_injective.
  repeat constructor; lia.
Defined.

(** A 16-digit secret with the salts 5 and 7. *)
Lemma fallbackPoseidon_first16_witness :
  fallbackPoseidon [1234567890123456; 5] = fallbackPoseidon [1234567890123456; 7].
Proof.
  apply fallbackPoseidon_first16;
    [apply Nat.leb_le; vm_compute; reflexivity|apply Nat.leb_le; vm_compute; reflexivity|
     vm_compute; reflexivity].
Defined.

(** The secret [10^15] with the salts 5 and 7. *)
Lemma fallback_nullifier_ignores_salt_witness :
  10 ^ 15 <= 10 ^ 15 /\ fallbackPoseidon [10 ^ 15; 5] = fallbackPoseidon [10 ^ 15; 7].
Proof.
  split; [lia|]. apply fallback_nullifier_ignores_salt; lia.
Defined.

(** The body the client posts at [1700000000] with an HMAC-length
    signature, on the empty tree. *)
Lemma client_offchain_request_admitted_witness :
  let res := verify_handler H8 false throwing_verify t0_ms initial_state
               (client_offchain_request 1700000000 5 123 77 0 hmac_hex 1700000000) in
  status (snd res) = 200 /\
  nullifiers (fst res) = (nullifiers initial_state ++ [JStr (dec_of_Z 77)])%list /\
  root (fst res) = dec_of_Z (H8 [123; Z.of_nat (length (leaves (fst res)))]).
Proof.
  apply (client_offchain_request_admitted H8 false throwing_verify t0_ms 1700000000 5 123 77 0
           1700000000 hmac_hex initial_state).
  all: first [ lia | left; reflexivity | apply Nat.leb_le; vm_compute; reflexivity
             | vm_compute; reflexivity | vm_compute; intros Hc; discriminate Hc ].
Defined.

End ExtraInstances.
